(** * bepass: server glue (package core) and the UDP-over-WebSocket tunnel
      (package transport)

    A shallow embedding of [RunServer], [ShutDown] and of
    [WSTunnel.PersistentDial] with the supervisor, writer and reader that it
    starts, followed by the properties established about them.

    Conventions.
    - Go's [int], [int64] and [time.Duration] are 64-bit: values are [Z] and
      arithmetic that can leave the range is wrapped by [int64]; [uint16] is
      wrapped by [uint16].
    - A byte is a [Z] in [0, 256); a [[]byte] is a [list Z].
    - A Go channel is a handle ([chan]); sending on it is recorded as an
      effect.  [make(chan ...)] takes the next unused handle of a [heap].
    - [error] is [option string], [None] being [nil].
    - Every clock reading ([time.Now()]) is an input of the function that
      performs it, in nanoseconds since the epoch.
    - Calls on the WebSocket connection are recorded, in order, in a trace of
      [effect]s; calls to the logger are not recorded. *)

From Stdlib Require Import ZArith Lia.
From stdpp Require Import gmap strings list.

Local Open Scope Z_scope.

(* ===================================================================== *)
(** ** Machine integers, bytes and time                                   *)
(* ===================================================================== *)

Definition error := option string.

Definition uint16 (z : Z) : Z := z mod 65536.

Definition int64 (z : Z) : Z := (z + 2 ^ 63) mod 2 ^ 64 - 2 ^ 63.

(** [byte(v)]: conversion of an unsigned integer to [byte]. *)
Definition byte_of (z : Z) : Z := Z.land z 255.

Definition is_byte (b : Z) : Prop := 0 <= b < 256.

(** [[]byte(s)] for a Go string [s]. *)
Definition bytes_of_string (s : string) : list Z :=
  map (fun a => Z.of_nat (Ascii.nat_of_ascii a)) (String.list_ascii_of_string s).

(** [strings.Contains(s, substr)]. *)
Definition Contains (s substr : string) : bool :=
  match String.index 0 substr s with
  | Some _ => true
  | None => false
  end.

(** [strings.HasPrefix(s, prefix)]. *)
Definition HasPrefix (s prefix : string) : bool := String.prefix prefix s.

(** [time.Time] as nanoseconds since the epoch, [time.Duration] as [int64]
    nanoseconds. *)
Definition Time := Z.
Definition Duration := Z.

Definition Second : Duration := 1000000000.

(** [time.Duration(n) * time.Second]. *)
Definition seconds (n : Z) : Duration := int64 (n * Second).

(** [t.Add(d)]. *)
Definition Add (t : Time) (d : Duration) : Time := t + d.

(** [t.Unix()]. *)
Definition Unix (t : Time) : Z := t / Second.

(** [binary.BigEndian.PutUint16(b, v)] on a 2-byte slice. *)
Definition PutUint16 (v : Z) : list Z :=
  [byte_of (Z.shiftr v 8); byte_of v].

(** [binary.BigEndian.Uint16(b)]: [uint16(b[1]) | uint16(b[0])<<8]. *)
Definition Uint16 (b0 b1 : Z) : Z :=
  Z.lor b1 (uint16 (Z.shiftl b0 8)).

(* ===================================================================== *)
(** ** Package transport                                                  *)
(* ===================================================================== *)

Module transport.

Definition chan := nat.

(** The channels handed out so far: the next unused handle. *)
Definition heap := nat.

Definition make_chan (h : heap) : chan * heap := (h, S h).

Record UDPPacket := {
  Channel : Z;
  Data : list Z
}.

Record EstablishedTunnel := {
  tunnelWriteChannel : chan;
  bindWriteChannels : gmap Z chan;
  channelIndex : Z
}.

(** [WSTunnel]; the [Dialer] field only serves [Dial], whose outcome is an
    input of the supervisor. *)
Record WSTunnel := {
  BindAddress : string;
  ReadTimeout : Z;
  WriteTimeout : Z;
  LinkIdleTimeout : Z;
  EstablishedTunnels : gmap string EstablishedTunnel;
  ShortClientID : string
}.

(** Assignment to the [w.EstablishedTunnels] map. *)
Definition with_tunnels (w : WSTunnel) (m : gmap string EstablishedTunnel) : WSTunnel :=
  {| BindAddress := BindAddress w;
     ReadTimeout := ReadTimeout w;
     WriteTimeout := WriteTimeout w;
     LinkIdleTimeout := LinkIdleTimeout w;
     EstablishedTunnels := m;
     ShortClientID := ShortClientID w |}.

(** The goroutine started by the first attach to an endpoint: the variables
    its closure captures. *)
Record supervisor := {
  sup_endpoint : string;
  sup_queue : chan;
  lastActivityStamp : Z
}.

Record dial_result := {
  dial_chan : chan;
  dial_id : Z;
  dial_err : error
}.

Record dial_state := {
  ds_tunnel : WSTunnel;
  ds_heap : heap;
  ds_spawned : option supervisor;
  ds_result : dial_result
}.

(** [PersistentDial].  [now] is the reading of [time.Now()] taken when a new
    tunnel is created. *)
Definition PersistentDial (w : WSTunnel) (h : heap) (now : Time)
    (tunnelEndpoint : string) (bindWriteChannel : chan) : dial_state :=
  match EstablishedTunnels w !! tunnelEndpoint with
  | Some tunnel =>
      let idx := uint16 (channelIndex tunnel + 1) in
      let tunnel' :=
        {| tunnelWriteChannel := tunnelWriteChannel tunnel;
           bindWriteChannels := <[idx := bindWriteChannel]> (bindWriteChannels tunnel);
           channelIndex := idx |} in
      {| ds_tunnel := with_tunnels w (<[tunnelEndpoint := tunnel']> (EstablishedTunnels w));
         ds_heap := h;
         ds_spawned := None;
         ds_result := {| dial_chan := tunnelWriteChannel tunnel;
                         dial_id := idx;
                         dial_err := None |} |}
  | None =>
      let '(c, h') := make_chan h in
      let tunnel :=
        {| tunnelWriteChannel := c;
           bindWriteChannels := <[1 := bindWriteChannel]> ∅;
           channelIndex := 1 |} in
      {| ds_tunnel := with_tunnels w (<[tunnelEndpoint := tunnel]> (EstablishedTunnels w));
         ds_heap := h';
         ds_spawned := Some {| sup_endpoint := tunnelEndpoint;
                               sup_queue := c;
                               lastActivityStamp := Unix now |};
         ds_result := {| dial_chan := c; dial_id := 1; dial_err := None |} |}
  end.

(** A sequence of attaches, each with its own clock reading; the results are
    returned in call order. *)
Record attach_call := {
  call_now : Time;
  call_endpoint : string;
  call_bind : chan
}.

Fixpoint attach_all (w : WSTunnel) (h : heap) (calls : list attach_call)
    : WSTunnel * heap * list (string * dial_result) :=
  match calls with
  | [] => (w, h, [])
  | c :: rest =>
      let st := PersistentDial w h (call_now c) (call_endpoint c) (call_bind c) in
      let '(w', h', rs) := attach_all (ds_tunnel st) (ds_heap st) rest in
      (w', h', (call_endpoint c, ds_result st) :: rs)
  end.

(** The channel ids handed out for one endpoint, in call order. *)
Definition ids_for (e : string) (rs : list (string * dial_result)) : list Z :=
  map (fun r => dial_id (snd r)) (filter (fun r => fst r = e) rs).

(** The counter an attach to [e] starts from: the tunnel's [channelIndex],
    or 0 when the endpoint has no tunnel. *)
Definition index_of (w : WSTunnel) (e : string) : Z :=
  match EstablishedTunnels w !! e with
  | Some t => channelIndex t
  | None => 0
  end.

(** How many of the calls attach to [e]. *)
Definition attaches_to (e : string) (calls : list attach_call) : nat :=
  length (filter (fun c => call_endpoint c = e) calls).

(** *** Attaches and removals over time *)

(** What is done to the registry: a call of [PersistentDial], or the
    deferred [delete(w.EstablishedTunnels, tunnelEndpoint)] of the
    supervisor of an endpoint. *)
Inductive registry_event :=
  | EvAttach (c : attach_call)
  | EvDelete (e : string).

Definition unregister (w : WSTunnel) (e : string) : WSTunnel :=
  with_tunnels w (delete e (EstablishedTunnels w)).

(** The attaches made to [e] during the current life of its tunnel entry,
    that is since the entry was last removed, in call order: for each the
    heap the call found and what it returned.  [acc] holds those made so
    far. *)
Fixpoint lifetime (e : string) (w : WSTunnel) (h : heap)
    (evs : list registry_event) (acc : list (heap * dial_result))
    : list (heap * dial_result) :=
  match evs with
  | [] => acc
  | EvAttach c :: rest =>
      let st := PersistentDial w h (call_now c) (call_endpoint c) (call_bind c) in
      lifetime e (ds_tunnel st) (ds_heap st) rest
        (if decide (call_endpoint c = e) then acc ++ [(h, ds_result st)] else acc)
  | EvDelete e' :: rest =>
      lifetime e (unregister w e') h rest (if decide (e' = e) then [] else acc)
  end.

(** *** The goroutines of one WebSocket session *)

(** What a goroutine does to the connection and to channels, in order.
    [CloseSignal true] is [close(done)], [CloseSignal false] is
    [close(doneR)]. *)
Inductive effect :=
  | SetWriteDeadline (t : Time)
  | SetReadDeadline (t : Time)
  | ConnWrite (bs : list Z)
  | ConnRead
  | ConnClose
  | CloseSignal (done : bool)
  | ChanSend (c : chan) (p : UDPPacket).

(** A goroutine that is blocked or looping, that has returned, or that hit a
    nil dereference. *)
Inductive status := Running | Returned | Panicked.

(** A goroutine of the session: the calls it made so far, the value it last
    saw or stored in the captured [lastActivityStamp], and its status. *)
Record thread := {
  trace : list effect;
  th_last : Z;
  th_status : status
}.

Definition spawn (last : Z) : thread :=
  {| trace := []; th_last := last; th_status := Running |}.

Definition emit (th : thread) (e : effect) : thread :=
  {| trace := trace th ++ [e]; th_last := th_last th; th_status := th_status th |}.

Definition set_last (th : thread) (stamp : Z) : thread :=
  {| trace := trace th; th_last := stamp; th_status := th_status th |}.

Definition finish (th : thread) (s : status) : thread :=
  {| trace := trace th; th_last := th_last th; th_status := s |}.

(** The writer's deferred function: [close(doneR)], [conn.Close()]. *)
Definition writer_exit (th : thread) : thread :=
  finish (emit (emit th (CloseSignal false)) ConnClose) Returned.

(** The reader's deferred function: [close(done)], [conn.Close()]. *)
Definition reader_exit (th : thread) : thread :=
  finish (emit (emit th (CloseSignal true)) ConnClose) Returned.

(** A nil dereference in the reader: the deferred [close(done)] and
    [conn.Close()] run while the panic unwinds. *)
Definition reader_panic (th : thread) : thread :=
  finish (emit (emit th (CloseSignal true)) ConnClose) Panicked.

(** The wire frame the writer builds:
    [append([]byte(w.ShortClientID), append(bs, rt.Data...)...)]. *)
Definition frame (w : WSTunnel) (rt : UDPPacket) : list Z :=
  let bs := PutUint16 (Channel rt) in
  bytes_of_string (ShortClientID w) ++ (bs ++ Data rt).

(** One [select] of the writer: either [done] fired, or a packet was taken
    from [tunnelWriteChannel]; then [now] is the clock read for the deadline,
    [deadline_err] and [write_err] are what [SetWriteDeadline] and [Write]
    return, and [now'] is the clock read after the write. *)
Inductive writer_input :=
  | WDone
  | WPacket (rt : UDPPacket) (now : Time) (deadline_err write_err : error) (now' : Time).

(** The [case rt := <-tunnelWriteChannel] branch. *)
Definition writer_packet (w : WSTunnel) (th : thread) (rt : UDPPacket)
    (now : Time) (deadline_err write_err : error) (now' : Time) : thread :=
  let th1 := emit th (SetWriteDeadline (Add now (seconds (WriteTimeout w)))) in
  match deadline_err with
  | Some _ => writer_exit th1
  | None =>
      let th2 := emit th1 (ConnWrite (frame w rt)) in
      match write_err with
      | Some _ => writer_exit th2
      | None => set_last th2 (Unix now')
      end
  end.

Definition writer_step (w : WSTunnel) (th : thread) (i : writer_input) : thread :=
  match i with
  | WDone => writer_exit th
  | WPacket rt now derr werr now' => writer_packet w th rt now derr werr now'
  end.

(** The writer goroutine on a finite prefix of its inputs; it is still
    [Running] (blocked in [select]) when the inputs run out first. *)
Fixpoint writer_loop (w : WSTunnel) (th : thread) (ins : list writer_input) : thread :=
  match ins with
  | [] => th
  | i :: rest =>
      let th' := writer_step w th i in
      match th_status th' with
      | Running => writer_loop w th' rest
      | _ => th'
      end
  end.

Definition writer (w : WSTunnel) (last : Z) (ins : list writer_input) : thread :=
  writer_loop w (spawn last) ins.

(** What [conn.Read(rawPacket)] returns: the [n] bytes it stored at the front
    of the 32 KiB buffer, and the error. *)
Record read_result := {
  rd_bytes : list Z;
  rd_err : error
}.

(** One [select] of the reader: [doneR] fired, or (default branch) a read was
    made.  [tunnels] is [w.EstablishedTunnels] as that iteration finds it
    (attaches by other goroutines change it), [now] the clock read after a
    delivery. *)
Inductive reader_input :=
  | RDoneR
  | RRead (tunnels : gmap string EstablishedTunnel) (res : read_result) (now : Time).

(** The [default] branch of the reader. *)
Definition reader_read (tunnels : gmap string EstablishedTunnel)
    (tunnelEndpoint : string) (th : thread) (res : read_result) (now : Time) : thread :=
  let th := emit th ConnRead in
  let n := Z.of_nat (length (rd_bytes res)) in
  match rd_err res with
  | None =>
      if n <? 2 then th
      else
        match rd_bytes res with
        | b0 :: b1 :: rest =>
            let channelID := Uint16 b0 b1 in
            let pkt := {| Channel := channelID; Data := rest |} in
            match tunnels !! tunnelEndpoint with
            | None => reader_panic th
            | Some tunnel =>
                match bindWriteChannels tunnel !! Channel pkt with
                | Some udpBindWriteChan =>
                    set_last (emit th (ChanSend udpBindWriteChan pkt)) (Unix now)
                | None => th
                end
            end
        | _ => th
        end
  | Some msg =>
      if Contains msg "websocket: close" || Contains msg "i/o"
      then reader_exit th
      else th
  end.

Definition reader_step (tunnelEndpoint : string) (th : thread) (i : reader_input) : thread :=
  match i with
  | RDoneR => reader_exit th
  | RRead tunnels res now => reader_read tunnels tunnelEndpoint th res now
  end.

Fixpoint reader_loop (tunnelEndpoint : string) (th : thread) (ins : list reader_input) : thread :=
  match ins with
  | [] => th
  | i :: rest =>
      let th' := reader_step tunnelEndpoint th i in
      match th_status th' with
      | Running => reader_loop tunnelEndpoint th' rest
      | _ => th'
      end
  end.

(** The reader: [now] is the clock read for the read deadline and
    [deadline_err] what [SetReadDeadline] returns. *)
Definition reader (w : WSTunnel) (tunnelEndpoint : string) (last : Z)
    (now : Time) (deadline_err : error) (ins : list reader_input) : thread :=
  let th := emit (spawn last) (SetReadDeadline (Add now (seconds (ReadTimeout w)))) in
  match deadline_err with
  | Some _ => reader_exit th
  | None => reader_loop tunnelEndpoint th ins
  end.

(** The read deadlines set and the reads made in a trace. *)
Definition read_deadlines (tr : list effect) : list Time :=
  omap (fun e => match e with SetReadDeadline t => Some t | _ => None end) tr.

Definition reads (tr : list effect) : nat :=
  length (omap (fun e => match e with ConnRead => Some tt | _ => None end) tr).

(** *** The supervisor *)

(** One turn of the supervisor's [for]: the dial failed, or a session ran
    with the given inputs of its reader and of its writer goroutine. *)
Inductive iteration :=
  | DialFailed
  | Session (now : Time) (deadline_err : error)
            (rs : list reader_input) (ws : list writer_input).

Record session := {
  ses_reader : thread;
  ses_writer : thread
}.

Record sup_state := {
  sup_tunnel : WSTunnel;
  sup_status : status;
  sup_last : Z;
  sup_sessions : list session
}.

(** The writer goroutine and the reader of one WebSocket connection. *)
Definition run_session (w : WSTunnel) (s : supervisor) (last : Z)
    (now : Time) (deadline_err : error)
    (rs : list reader_input) (ws : list writer_input) : session :=
  {| ses_reader := reader w (sup_endpoint s) last now deadline_err rs;
     ses_writer := writer w last ws |}.

(** The [for] of the supervisor on a finite list of turns.  The reader runs
    in the supervisor's own goroutine: the next turn starts when it has
    returned.  Reader and writer store into [lastActivityStamp] without
    synchronisation; the clock being monotone, the later store holds the
    larger reading.  When the reader panics, the supervisor's deferred
    [delete] runs too as the panic unwinds: the reader panics only where
    the registry has no entry for the endpoint, so that [delete] removes
    nothing and the supervisor leaves the registry as it is. *)
Fixpoint sup_loop (w : WSTunnel) (s : supervisor) (last : Z)
    (done : list session) (iters : list iteration) : sup_state :=
  match iters with
  | [] => {| sup_tunnel := w; sup_status := Running; sup_last := last; sup_sessions := done |}
  | DialFailed :: rest => sup_loop w s last done rest
  | Session now derr rs ws :: rest =>
      let ses := run_session w s last now derr rs ws in
      let last' := Z.max (th_last (ses_reader ses)) (th_last (ses_writer ses)) in
      match th_status (ses_reader ses) with
      | Returned => sup_loop w s last' (done ++ [ses]) rest
      | st => {| sup_tunnel := w; sup_status := st; sup_last := last';
                 sup_sessions := done ++ [ses] |}
      end
  end.

(** The goroutine started by [PersistentDial]: [check_now] is the clock read
    by the idle check; the deferred [delete] runs when the function
    returns. *)
Definition supervise (w : WSTunnel) (s : supervisor) (check_now : Time)
    (iters : list iteration) : sup_state :=
  if int64 (Unix check_now - lastActivityStamp s) >? LinkIdleTimeout w
  then {| sup_tunnel := with_tunnels w (delete (sup_endpoint s) (EstablishedTunnels w));
          sup_status := Returned;
          sup_last := lastActivityStamp s;
          sup_sessions := [] |}
  else sup_loop w s (lastActivityStamp s) [] iters.

(** *** Vocabulary for traces and registries *)

(** The ids under which a bind queue is registered for endpoint [e]. *)
Definition bind_dom (w : WSTunnel) (e : string) : gset Z :=
  match EstablishedTunnels w !! e with
  | Some t => dom (bindWriteChannels t)
  | None => ∅
  end.

(** Every registered tunnel write queue was handed out by the heap. *)
Definition queues_allocated (w : WSTunnel) (h : heap) : Prop :=
  forall e t, EstablishedTunnels w !! e = Some t -> (tunnelWriteChannel t < h)%nat.

(** No two endpoints have the same tunnel write queue. *)
Definition queues_distinct (w : WSTunnel) : Prop :=
  forall e1 e2 t1 t2,
    EstablishedTunnels w !! e1 = Some t1 ->
    EstablishedTunnels w !! e2 = Some t2 ->
    tunnelWriteChannel t1 = tunnelWriteChannel t2 -> e1 = e2.

(** The byte strings written to the connection, in order. *)
Definition conn_writes (tr : list effect) : list (list Z) :=
  omap (fun e => match e with ConnWrite bs => Some bs | _ => None end) tr.

(** The packets sent on bind queues, in order. *)
Definition chan_sends (tr : list effect) : list (chan * UDPPacket) :=
  omap (fun e => match e with ChanSend c p => Some (c, p) | _ => None end) tr.

(** Whether every write of the trace directly follows a call setting the
    write deadline; [armed] tells whether the call before the trace was
    one. *)
Fixpoint writes_guarded (armed : bool) (tr : list effect) : bool :=
  match tr with
  | [] => true
  | SetWriteDeadline _ :: rest => writes_guarded true rest
  | ConnWrite _ :: rest => armed && writes_guarded false rest
  | _ :: rest => writes_guarded false rest
  end.

(** The calls that end a session: closing a completion signal or the
    connection. *)
Definition is_close (e : effect) : bool :=
  match e with
  | ConnClose | CloseSignal _ => true
  | _ => false
  end.

Definition closes (tr : list effect) : list effect := List.filter is_close tr.

(** A packet taken by the writer whose deadline call and write succeed. *)
Definition sent_ok (p : UDPPacket * Time * Time) : writer_input :=
  WPacket p.1.1 p.1.2 None None p.2.

(** A message read without error while the registry is [tunnels]. *)
Definition read_ok (tunnels : gmap string EstablishedTunnel)
    (m : list Z * Time) : reader_input :=
  RRead tunnels {| rd_bytes := m.1; rd_err := None |} m.2.

(** Where the reader sends a message, if anywhere, given the tunnel of its
    endpoint. *)
Definition route (t : EstablishedTunnel) (m : list Z * Time)
    : option (chan * UDPPacket) :=
  match m.1 with
  | b0 :: b1 :: payload =>
      match bindWriteChannels t !! Uint16 b0 b1 with
      | Some q => Some (q, {| Channel := Uint16 b0 b1; Data := payload |})
      | None => None
      end
  | _ => None
  end.

(** What one [select] of the writer adds to its trace. *)
Definition writer_chunk (w : WSTunnel) (i : writer_input) : list effect :=
  match i with
  | WDone => [CloseSignal false; ConnClose]
  | WPacket rt now (Some _) _ _ =>
      [SetWriteDeadline (Add now (seconds (WriteTimeout w)));
       CloseSignal false; ConnClose]
  | WPacket rt now None (Some _) _ =>
      [SetWriteDeadline (Add now (seconds (WriteTimeout w)));
       ConnWrite (frame w rt); CloseSignal false; ConnClose]
  | WPacket rt now None None _ =>
      [SetWriteDeadline (Add now (seconds (WriteTimeout w)));
       ConnWrite (frame w rt)]
  end.

(** How a message [bs], read without error at [now] while the endpoint's
    tunnel is [tunnel], takes the reader from [before] to [after]: ignored
    when shorter than 2 bytes; otherwise the channel id is the big-endian
    value of the first two bytes, the payload is the rest, and the packet is
    sent on the bind queue registered for the id, or dropped when there is
    none. *)
Definition routed (tunnel : EstablishedTunnel) (bs : list Z) (now : Time)
    (before after : thread) : Prop :=
  ((length bs < 2)%nat -> after = emit before ConnRead) /\
  (forall b0 b1 payload, bs = b0 :: b1 :: payload ->
     let pkt := {| Channel := b0 * 256 + b1; Data := payload |} in
     match bindWriteChannels tunnel !! (b0 * 256 + b1) with
     | Some queue =>
         trace after = trace before ++ [ConnRead; ChanSend queue pkt] /\
         th_last after = Unix now /\
         th_status after = th_status before
     | None => after = emit before ConnRead
     end).

(** Whether a turn of the supervisor got a connection. *)
Definition is_session (it : iteration) : bool :=
  match it with
  | DialFailed => false
  | Session _ _ _ _ => true
  end.

(** Whether an input ends the writer: [done] fired, or the deadline call or
    the write failed. *)
Definition writer_stops (i : writer_input) : bool :=
  match i with
  | WPacket _ _ None None _ => false
  | _ => true
  end.

(** Whether a read error ends the reader. *)
Definition fatal (msg : string) : bool :=
  Contains msg "websocket: close" || Contains msg "i/o".

End transport.

(* ===================================================================== *)
(** ** Packages used by core whose sources are not part of this file      *)
(* ===================================================================== *)

Module logger.

(** Modelled from the spec: the logging sink is an external collaborator;
    only its identity is kept. *)
Inductive Logger := NewLogger.

End logger.

Module cache.

(** Modelled from the spec: package cache is absent; a cache is created
    from its TTL. *)
Record Cache := { ttl : Duration }.

Definition NewCache (d : Duration) : Cache := {| ttl := d |}.

End cache.

Module resolve.

(** Modelled from the spec: package resolve is absent; a hosts rule is a
    (pattern, address) pair. *)
Record Hosts := { pattern : string; address : string }.

Record LocalResolver := {
  Logger : logger.Logger;
  Hosts_ : list Hosts
}.

End resolve.

Module dialer.

(** Modelled from the spec: package dialer is absent; these are the fields
    [RunServer] sets. *)
Record Dialer := {
  Logger : logger.Logger;
  EnableLowLevelSockets : bool;
  TLSPaddingEnabled : bool;
  TLSPaddingSize : Z * Z;
  ProxyAddress : string
}.

End dialer.

Module doh.

(** Modelled from the spec: package doh is absent; a client holds the
    "DNS fragmentation" flag, the dialer it opens connections with and the
    local resolver, each set by a functional option of [NewClient]. *)
Record Client := {
  fragmentation : bool;
  dialer_ : option dialer.Dialer;
  localResolver : option resolve.LocalResolver
}.

Definition Option := Client -> Client.

Definition WithDNSFragmentation (b : bool) : Option :=
  fun c => {| fragmentation := b; dialer_ := dialer_ c; localResolver := localResolver c |}.

Definition WithDialer (d : dialer.Dialer) : Option :=
  fun c => {| fragmentation := fragmentation c; dialer_ := Some d; localResolver := localResolver c |}.

Definition WithLocalResolver (r : resolve.LocalResolver) : Option :=
  fun c => {| fragmentation := fragmentation c; dialer_ := dialer_ c; localResolver := Some r |}.

Definition NewClient (opts : list Option) : Client :=
  fold_left (fun c o => o c) opts
    {| fragmentation := false; dialer_ := None; localResolver := None |}.

End doh.

Module server.

(** Modelled from the spec: package server is absent; these are the fields
    of its configuration records that [RunServer] sets.  A field the
    composite literal does not name keeps Go's zero value and is not
    represented. *)
Record ChunkConfig := {
  BeforeSniLength : Z * Z;
  AfterSniLength : Z * Z;
  Delay : Z * Z;
  TLSHeaderLength : Z
}.

Record WorkerConfig := {
  WorkerAddress : string;
  WorkerIPPortAddress : string;
  WorkerEnabled : bool;
  WorkerDNSOnly : bool
}.

Record Server := {
  RemoteDNSAddr : string;
  Cache : cache.Cache;
  ResolveSystem : string;
  DoHClient : option doh.Client;
  Logger : logger.Logger;
  ChunkConfig_ : ChunkConfig;
  WorkerConfig_ : WorkerConfig;
  BindAddress : string;
  EnableLowLevelSockets : bool;
  Dialer : dialer.Dialer;
  LocalResolver : resolve.LocalResolver
}.

End server.

Module socks5.

(** Modelled from the spec: package socks5 is absent; a server holds its
    connect handler and the address its listener is bound to, if any.
    [ListenAndServe] binds the listener.  [Shutdown] is all that the glue's
    shutdown calls, and of that the spec says that it closes the listener
    and all active tunnels: it is given the tunnel multiplexers its handler
    created, and a closed tunnel is dropped from its registry. *)
Record Server := {
  connectHandle : server.Server;
  listener : option (string * string)
}.

Definition NewServer (h : server.Server) : Server :=
  {| connectHandle := h; listener := None |}.

Definition ListenAndServe (s : Server) (network addr : string) : Server :=
  {| connectHandle := connectHandle s; listener := Some (network, addr) |}.

Definition close_tunnels (w : transport.WSTunnel) : transport.WSTunnel :=
  transport.with_tunnels w ∅.

Definition Shutdown (s : Server) (active : list transport.WSTunnel)
    : Server * list transport.WSTunnel * error :=
  ({| connectHandle := connectHandle s; listener := None |},
   map close_tunnels active,
   None).

End socks5.

(* ===================================================================== *)
(** ** Package core                                                       *)
(* ===================================================================== *)

Module core.

Record Config := {
  TLSHeaderLength : Z;
  TLSPaddingEnabled : bool;
  TLSPaddingSize : Z * Z;
  DnsCacheTTL : Z;
  DnsRequestTimeout : Z;
  WorkerAddress : string;
  WorkerIPPortAddress : string;
  WorkerEnabled : bool;
  WorkerDNSOnly : bool;
  EnableLowLevelSockets : bool;
  EnableDNSFragmentation : bool;
  RemoteDNSAddr : string;
  BindAddress : string;
  ChunksLengthBeforeSni : Z * Z;
  SniChunksLength : Z * Z;
  ChunksLengthAfterSni : Z * Z;
  DelayBetweenChunks : Z * Z;
  Hosts : list resolve.Hosts;
  ResolveSystem : string;
  DoHClient : option doh.Client
}.

Definition appLogger : logger.Logger := logger.NewLogger.

Definition localResolver (config : Config) : resolve.LocalResolver :=
  {| resolve.Logger := appLogger;
     resolve.Hosts_ := Hosts config |}.

Definition dialer_ (config : Config) : dialer.Dialer :=
  {| dialer.Logger := appLogger;
     dialer.EnableLowLevelSockets := EnableLowLevelSockets config;
     dialer.TLSPaddingEnabled := TLSPaddingEnabled config;
     dialer.TLSPaddingSize := TLSPaddingSize config;
     dialer.ProxyAddress := "socks5://" +:+ BindAddress config |}.

(** The [if strings.HasPrefix(config.RemoteDNSAddr, "https://")] statement:
    the values of [resolveSystem] and [dohClient] after it. *)
Definition resolveSystem (config : Config) : string :=
  if HasPrefix (RemoteDNSAddr config) "https://" then "doh" else "DNSCrypt".

Definition dohClient (config : Config) : option doh.Client :=
  if HasPrefix (RemoteDNSAddr config) "https://"
  then Some (doh.NewClient
               [doh.WithDNSFragmentation
                  ((WorkerEnabled config && WorkerDNSOnly config) || EnableDNSFragmentation config);
                doh.WithDialer (dialer_ config);
                doh.WithLocalResolver (localResolver config)])
  else None.

Definition chunkConfig (config : Config) : server.ChunkConfig :=
  {| server.BeforeSniLength := SniChunksLength config;
     server.AfterSniLength := ChunksLengthAfterSni config;
     server.Delay := DelayBetweenChunks config;
     server.TLSHeaderLength := TLSHeaderLength config |}.

Definition workerConfig (config : Config) : server.WorkerConfig :=
  {| server.WorkerAddress := WorkerAddress config;
     server.WorkerIPPortAddress := WorkerIPPortAddress config;
     server.WorkerEnabled := WorkerEnabled config;
     server.WorkerDNSOnly := WorkerDNSOnly config |}.

Definition serverHandler (config : Config) : server.Server :=
  {| server.RemoteDNSAddr := RemoteDNSAddr config;
     server.Cache := cache.NewCache (seconds (DnsCacheTTL config));
     server.ResolveSystem := resolveSystem config;
     server.DoHClient := dohClient config;
     server.Logger := appLogger;
     server.ChunkConfig_ := chunkConfig config;
     server.WorkerConfig_ := workerConfig config;
     server.BindAddress := BindAddress config;
     server.EnableLowLevelSockets := EnableLowLevelSockets config;
     server.Dialer := dialer_ config;
     server.LocalResolver := localResolver config |}.

(** The running process: whether the interrupt goroutine was started, the
    package variable [s5], the tunnel multiplexers the handler created, and
    the exit code once [os.Exit] was called. *)
Record process := {
  captureCTRLC : bool;
  s5 : socks5.Server;
  tunnels : list transport.WSTunnel;
  exit_code : option Z
}.

(** [RunServer] up to the point where [ListenAndServe] blocks. *)
Definition RunServer (config : Config) (captureCTRLC : bool) : process :=
  {| captureCTRLC := captureCTRLC;
     s5 := socks5.ListenAndServe
             (socks5.NewServer (serverHandler config)) "tcp" (BindAddress config);
     tunnels := [];
     exit_code := None |}.

Definition ShutDown (p : process) : process * error :=
  let '(srv, active, err) := socks5.Shutdown (s5 p) (tunnels p) in
  ({| captureCTRLC := captureCTRLC p;
      s5 := srv;
      tunnels := active;
      exit_code := exit_code p |}, err).

(** [os.Exit(code)]. *)
Definition os_Exit (code : Z) (p : process) : process :=
  {| captureCTRLC := captureCTRLC p;
     s5 := s5 p;
     tunnels := tunnels p;
     exit_code := Some code |}.

(** The body of the goroutine started under [if captureCTRLC], once a signal
    has arrived on [c]: [_ = ShutDown(); os.Exit(0)]. *)
Definition interrupt_handler (p : process) : process :=
  let '(p', _) := ShutDown p in
  os_Exit 0 p'.

(** Delivery of SIGINT or SIGTERM to a process whose handler is installed;
    without the handler the Go runtime, not this program, decides. *)
Definition interrupt (p : process) : option process :=
  if captureCTRLC p then Some (interrupt_handler p) else None.

End core.

(* ===================================================================== *)
(** ** Sample inputs                                                      *)
(* ===================================================================== *)

Module sample.

Definition endpoint : string := "wss://worker.example/udp".

(** A multiplexer with no tunnel yet: timeouts of 30 s, idle timeout 120 s. *)
Definition w0 : transport.WSTunnel :=
  {| transport.BindAddress := "127.0.0.1:8085";
     transport.ReadTimeout := 30;
     transport.WriteTimeout := 30;
     transport.LinkIdleTimeout := 120;
     transport.EstablishedTunnels := ∅;
     transport.ShortClientID := "abcd1234" |}.

Definition call (bind : transport.chan) : transport.attach_call :=
  {| transport.call_now := 1700000000 * Second;
     transport.call_endpoint := endpoint;
     transport.call_bind := bind |}.

(** [w0] after one attach of bind queue 7 at Unix time 1700000000. *)
Definition st1 : transport.dial_state :=
  transport.PersistentDial w0 0%nat (1700000000 * Second) endpoint 7%nat.

Definition w1 : transport.WSTunnel := transport.ds_tunnel st1.

Definition sup1 : transport.supervisor :=
  {| transport.sup_endpoint := endpoint;
     transport.sup_queue := 0%nat;
     transport.lastActivityStamp := 1700000000 |}.

Definition config : core.Config :=
  {| core.TLSHeaderLength := 5;
     core.TLSPaddingEnabled := false;
     core.TLSPaddingSize := (40, 80);
     core.DnsCacheTTL := 30;
     core.DnsRequestTimeout := 10;
     core.WorkerAddress := "https://worker.example/dns-query";
     core.WorkerIPPortAddress := "104.16.0.1:443";
     core.WorkerEnabled := true;
     core.WorkerDNSOnly := true;
     core.EnableLowLevelSockets := false;
     core.EnableDNSFragmentation := false;
     core.RemoteDNSAddr := "https://1.1.1.1/dns-query";
     core.BindAddress := "0.0.0.0:8085";
     core.ChunksLengthBeforeSni := (1, 3);
     core.SniChunksLength := (1, 1);
     core.ChunksLengthAfterSni := (10, 20);
     core.DelayBetweenChunks := (0, 0);
     core.Hosts := [];
     core.ResolveSystem := "";
     core.DoHClient := None |}.

End sample.

(* ===================================================================== *)
(** ** Machine integers and the big-endian codec                          *)
(* ===================================================================== *)

Lemma uint16_range z : 0 <= uint16 z < 65536.
Proof. unfold uint16. apply Z.mod_pos_bound. lia. Qed.

Lemma uint16_small z : 0 <= z < 65536 -> uint16 z = z.
Proof. intros H. unfold uint16. apply Z.mod_small; exact H. Qed.

Lemma uint16_add_l a b : uint16 (uint16 a + b) = uint16 (a + b).
Proof. unfold uint16. apply Zplus_mod_idemp_l. Qed.

Lemma int64_small z : - 2 ^ 63 <= z < 2 ^ 63 -> int64 z = z.
Proof.
  intros H. unfold int64.
  rewrite Z.mod_small; lia.
Qed.

Lemma seconds_exact n :
  -9223372036 <= n <= 9223372036 -> seconds n = n * Second.
Proof.
  intros H. unfold seconds, Second. apply int64_small. lia.
Qed.

Lemma byte_of_mod z : byte_of z = z mod 256.
Proof.
  unfold byte_of. change 255 with (Z.ones 8).
  rewrite Z.land_ones by lia. reflexivity.
Qed.

Lemma PutUint16_big_endian v :
  0 <= v < 65536 -> PutUint16 v = [v / 256; v mod 256].
Proof.
  intros H. unfold PutUint16.
  rewrite !byte_of_mod, Z.shiftr_div_pow2 by lia.
  change (2 ^ 8) with 256.
  rewrite (Z.mod_small (v / 256)); [reflexivity|].
  split; [apply Z.div_pos; lia | apply Z.div_lt_upper_bound; lia].
Qed.

Lemma lor_disjoint_bytes b0 b1 :
  is_byte b0 -> is_byte b1 -> Z.lor b1 (b0 * 256) = b0 * 256 + b1.
Proof.
  unfold is_byte. intros H0 H1.
  assert (Hland : Z.land b1 (b0 * 256) = 0).
  { apply Z.bits_inj'. intros n Hn.
    rewrite Z.land_spec, Z.bits_0.
    destruct (Z.lt_ge_cases n 8) as [Hlt | Hge].
    - change 256 with (2 ^ 8). rewrite Z.mul_pow2_bits_low by lia.
      apply andb_false_r.
    - rewrite (Z.bits_above_log2 b1 n); [reflexivity | lia |].
      destruct (Z.eq_dec b1 0) as [-> | Hnz]; [simpl; lia|].
      assert (Z.log2 b1 < 8); [|lia].
      apply Z.log2_lt_pow2; lia. }
  rewrite <- Z.lxor_lor by exact Hland.
  rewrite <- Z.add_nocarry_lxor by exact Hland.
  lia.
Qed.

Lemma Uint16_big_endian b0 b1 :
  is_byte b0 -> is_byte b1 -> Uint16 b0 b1 = b0 * 256 + b1.
Proof.
  intros H0 H1. unfold Uint16.
  rewrite Z.shiftl_mul_pow2 by lia. change (2 ^ 8) with 256.
  rewrite uint16_small by (unfold is_byte in *; lia).
  apply lor_disjoint_bytes; assumption.
Qed.

(** Decoding the two bytes the writer encodes gives the channel back. *)
Lemma Uint16_PutUint16 v b0 b1 :
  0 <= v < 65536 -> PutUint16 v = [b0; b1] -> Uint16 b0 b1 = v.
Proof.
  intros Hv Hput. rewrite PutUint16_big_endian in Hput by exact Hv.
  injection Hput as <- <-.
  rewrite Uint16_big_endian.
  - pose proof (Z.div_mod v 256). lia.
  - unfold is_byte. split; [apply Z.div_pos; lia | apply Z.div_lt_upper_bound; lia].
  - unfold is_byte. apply Z.mod_pos_bound. lia.
Qed.

(* ===================================================================== *)
(** ** PersistentDial: attaching a bind queue                             *)
(* ===================================================================== *)

Section Attach.

Import transport.

Lemma PersistentDial_id w h now e q :
  dial_id (ds_result (PersistentDial w h now e q)) = uint16 (index_of w e + 1).
Proof.
  unfold PersistentDial, index_of.
  destruct (EstablishedTunnels w !! e); reflexivity.
Qed.

Lemma PersistentDial_index w h now e q :
  index_of (ds_tunnel (PersistentDial w h now e q)) e = uint16 (index_of w e + 1).
Proof.
  unfold PersistentDial, index_of.
  destruct (EstablishedTunnels w !! e) as [t|] eqn:Hlk; simpl;
    rewrite lookup_insert_eq; reflexivity.
Qed.

Lemma PersistentDial_index_other w h now e e' q :
  e <> e' ->
  index_of (ds_tunnel (PersistentDial w h now e q)) e' = index_of w e'.
Proof.
  intros Hne. unfold PersistentDial, index_of.
  destruct (EstablishedTunnels w !! e) as [t|] eqn:Hlk; simpl;
    rewrite lookup_insert_ne by exact Hne; reflexivity.
Qed.

(** The ids handed out for [e] count up from the endpoint's counter, modulo
    2^16. *)
Lemma ids_for_attach_all calls : forall w h e,
  ids_for e (attach_all w h calls).2 =
  map (fun k => uint16 (index_of w e + Z.of_nat k)) (seq 1 (attaches_to e calls)).
Proof.
  induction calls as [|c rest IH]; intros w h e; [reflexivity|].
  cbn [attach_all].
  specialize (IH (ds_tunnel (PersistentDial w h (call_now c) (call_endpoint c) (call_bind c)))
                 (ds_heap (PersistentDial w h (call_now c) (call_endpoint c) (call_bind c))) e).
  destruct (attach_all _ _ rest) as [[w' h'] rs]. cbn [snd] in *.
  unfold ids_for, attaches_to in *.
  rewrite !filter_cons. cbn [fst].
  destruct (decide (call_endpoint c = e)) as [Heq | Hne].
  - cbn [map length seq snd]. rewrite IH. subst e.
    rewrite PersistentDial_id, PersistentDial_index. f_equal.
    rewrite <- (seq_shift _ 1), map_map.
    apply map_ext. intros k.
    rewrite uint16_add_l. f_equal. lia.
  - rewrite IH, PersistentDial_index_other by exact Hne. reflexivity.
Qed.

(** While fewer than 2^16 attaches were made, the ids are 1, 2, 3, ... *)
Lemma ids_for_fresh w h e calls :
  EstablishedTunnels w !! e = None ->
  Z.of_nat (attaches_to e calls) <= 65535 ->
  ids_for e (attach_all w h calls).2 = map Z.of_nat (seq 1 (attaches_to e calls)).
Proof.
  intros Habs Hle. rewrite ids_for_attach_all.
  unfold index_of. rewrite Habs.
  apply map_ext_in. intros k Hk. apply in_seq in Hk.
  apply uint16_small. lia.
Qed.

Lemma attaches_to_replicate n c :
  attaches_to (call_endpoint c) (replicate n c) = n.
Proof.
  unfold attaches_to. induction n as [|n IH]; [reflexivity|].
  cbn [replicate]. rewrite filter_cons_True by reflexivity.
  cbn [length]. rewrite IH. reflexivity.
Qed.

(** The same bind attached [n] times to an endpoint without a tunnel: the
    attach of rank [i] (from 0) receives [i + 1] modulo 2^16. *)
Lemma ids_replicate_lookup n c w h i :
  EstablishedTunnels w !! call_endpoint c = None ->
  (i < n)%nat ->
  ids_for (call_endpoint c) (attach_all w h (replicate n c)).2 !! i =
  Some (uint16 (Z.of_nat i + 1)).
Proof.
  intros Habs Hi.
  rewrite ids_for_attach_all, attaches_to_replicate.
  unfold index_of. rewrite Habs.
  change (map ?f ?l) with (f <$> l).
  rewrite list_lookup_fmap, lookup_seq_lt by exact Hi.
  cbn [fmap option_fmap option_map]. do 2 f_equal. lia.
Qed.

(** After an attach, the endpoint has a tunnel in which the bind queue is
    registered under the id returned. *)
Lemma PersistentDial_registers w h now e q :
  let st := PersistentDial w h now e q in
  exists t, EstablishedTunnels (ds_tunnel st) !! e = Some t /\
            bindWriteChannels t !! dial_id (ds_result st) = Some q.
Proof.
  unfold PersistentDial.
  destruct (EstablishedTunnels w !! e) as [t|] eqn:Hlk; cbn;
    eexists; rewrite lookup_insert_eq; (split; [reflexivity|]); cbn;
    apply lookup_insert_eq.
Qed.

Lemma PersistentDial_existing_aux w h now e q t :
  EstablishedTunnels w !! e = Some t ->
  dial_chan (ds_result (PersistentDial w h now e q)) = tunnelWriteChannel t /\
  ds_heap (PersistentDial w h now e q) = h /\
  exists t', EstablishedTunnels (ds_tunnel (PersistentDial w h now e q)) !! e = Some t' /\
             tunnelWriteChannel t' = tunnelWriteChannel t.
Proof.
  intros Hreg. unfold PersistentDial. rewrite Hreg. cbn.
  repeat (split; [reflexivity|]).
  eexists. rewrite lookup_insert_eq. split; reflexivity.
Qed.

Lemma PersistentDial_fresh_aux w h now e q :
  EstablishedTunnels w !! e = None ->
  dial_chan (ds_result (PersistentDial w h now e q)) = h /\
  ds_heap (PersistentDial w h now e q) = S h /\
  exists t', EstablishedTunnels (ds_tunnel (PersistentDial w h now e q)) !! e = Some t' /\
             tunnelWriteChannel t' = h.
Proof.
  intros Habs. unfold PersistentDial. rewrite Habs. cbn.
  repeat (split; [reflexivity|]).
  eexists. rewrite lookup_insert_eq. split; reflexivity.
Qed.

Lemma PersistentDial_other_endpoints_aux w h now e q e' :
  e <> e' ->
  EstablishedTunnels (ds_tunnel (PersistentDial w h now e q)) !! e' =
  EstablishedTunnels w !! e' /\
  LinkIdleTimeout (ds_tunnel (PersistentDial w h now e q)) = LinkIdleTimeout w.
Proof.
  intros Hne. unfold PersistentDial.
  destruct (EstablishedTunnels w !! e) as [t|]; cbn;
    rewrite lookup_insert_ne by exact Hne; auto.
Qed.

(** An invariant of registry and current attaches that every event keeps
    holds of the attaches of the current life after any events. *)
Lemma lifetime_invariant (I : WSTunnel -> list (heap * dial_result) -> Prop) e :
  (forall w h c acc, I w acc ->
     I (ds_tunnel (PersistentDial w h (call_now c) (call_endpoint c) (call_bind c)))
       (if decide (call_endpoint c = e)
        then acc ++ [(h, ds_result (PersistentDial w h (call_now c) (call_endpoint c)
                                      (call_bind c)))]
        else acc)) ->
  (forall w e' acc, I w acc ->
     I (unregister w e') (if decide (e' = e) then [] else acc)) ->
  forall evs w h acc, I w acc -> exists w', I w' (lifetime e w h evs acc).
Proof.
  intros Hattach Hdelete.
  induction evs as [|ev rest IH]; intros w h acc Hinv.
  - exists w. exact Hinv.
  - destruct ev as [c|e']; cbn [lifetime].
    + apply IH. apply Hattach. exact Hinv.
    + apply IH. apply Hdelete. exact Hinv.
Qed.

Lemma unregister_index w e e' :
  index_of (unregister w e') e = if decide (e' = e) then 0 else index_of w e.
Proof.
  unfold index_of, unregister. cbn.
  destruct (decide (e' = e)) as [-> | Hne].
  - rewrite lookup_delete_eq. reflexivity.
  - rewrite lookup_delete_ne by exact Hne. reflexivity.
Qed.

(** The ids of the current life of an entry count up from 1, modulo 2^16. *)
Lemma lifetime_ids w h e evs :
  EstablishedTunnels w !! e = None ->
  map (fun r => dial_id r.2) (lifetime e w h evs []) =
  map (fun k => uint16 (Z.of_nat k)) (seq 1 (length (lifetime e w h evs []))).
Proof.
  intros Habs.
  destruct (lifetime_invariant
              (fun w acc =>
                 index_of w e = uint16 (Z.of_nat (length acc)) /\
                 map (fun r => dial_id r.2) acc =
                 map (fun k => uint16 (Z.of_nat k)) (seq 1 (length acc)))
              e) with (evs := evs) (w := w) (h := h) (acc := @nil (heap * dial_result))
    as (w' & _ & Hids).
  - intros w0 h0 c acc [Hidx Hacc].
    destruct (decide (call_endpoint c = e)) as [<- | Hne].
    + rewrite PersistentDial_index, length_app, map_app, Hacc.
      cbn [length map snd]. rewrite PersistentDial_id, Hidx, uint16_add_l.
      rewrite Nat.add_1_r, seq_S, map_app. cbn [map].
      replace (Z.of_nat (length acc) + 1) with (Z.of_nat (S (length acc))) by lia.
      replace (1 + length acc)%nat with (S (length acc)) by lia.
      split; reflexivity.
    + rewrite PersistentDial_index_other by exact Hne. split; assumption.
  - intros w0 e' acc [Hidx Hacc]. rewrite unregister_index.
    destruct (decide (e' = e)); [split; reflexivity | split; assumption].
  - unfold index_of. rewrite Habs. split; reflexivity.
  - exact Hids.
Qed.

(** During the life of an entry the attaches return the channel made by the
    attach that created it. *)
Lemma lifetime_queue w h e evs :
  EstablishedTunnels w !! e = None ->
  match lifetime e w h evs [] with
  | [] => True
  | (h0, r0) :: rest =>
      dial_chan r0 = (make_chan h0).1 /\
      Forall (fun hr => dial_chan hr.2 = dial_chan r0) rest
  end.
Proof.
  intros Habs.
  destruct (lifetime_invariant
              (fun w acc =>
                 match acc with
                 | [] => EstablishedTunnels w !! e = None
                 | (h0, r0) :: rest =>
                     dial_chan r0 = (make_chan h0).1 /\
                     Forall (fun hr => dial_chan hr.2 = dial_chan r0) rest /\
                     exists t, EstablishedTunnels w !! e = Some t /\
                               tunnelWriteChannel t = dial_chan r0
                 end)
              e) with (evs := evs) (w := w) (h := h) (acc := @nil (heap * dial_result))
    as (w' & Hinv).
  - intros w0 h0 c acc Hinv.
    destruct (decide (call_endpoint c = e)) as [<- | Hne].
    + destruct acc as [|[h1 r1] rest].
      * destruct (PersistentDial_fresh_aux w0 h0 (call_now c) (call_endpoint c)
                    (call_bind c) Hinv) as (Hchan & _ & t & Hreg & Hq).
        cbn [app]. split; [exact Hchan|]. split; [constructor|].
        exists t. split; [exact Hreg|]. rewrite Hq, Hchan. reflexivity.
      * destruct Hinv as (Hfirst & Hall & t & Hreg & Hq).
        destruct (PersistentDial_existing_aux w0 h0 (call_now c) (call_endpoint c)
                    (call_bind c) t Hreg) as (Hchan & _ & t' & Hreg' & Hq').
        cbn [app]. split; [exact Hfirst|]. split.
        -- apply Forall_app. split; [exact Hall|].
           constructor; [|constructor]. cbn. rewrite Hchan. exact Hq.
        -- exists t'. split; [exact Hreg'|]. rewrite Hq'. exact Hq.
    + destruct acc as [|[h1 r1] rest].
      * rewrite (proj1 (PersistentDial_other_endpoints_aux w0 h0 _ _ _ e Hne)).
        exact Hinv.
      * destruct Hinv as (Hfirst & Hall & t & Hreg & Hq).
        split; [exact Hfirst|]. split; [exact Hall|].
        exists t. split; [|exact Hq].
        rewrite (proj1 (PersistentDial_other_endpoints_aux w0 h0 _ _ _ e Hne)).
        exact Hreg.
  - intros w0 e' acc Hinv. unfold unregister. cbn.
    destruct (decide (e' = e)) as [-> | Hne].
    + apply lookup_delete_eq.
    + destruct acc as [|[h1 r1] rest].
      * rewrite lookup_delete_ne by exact Hne. exact Hinv.
      * destruct Hinv as (Hfirst & Hall & t & Hreg & Hq).
        split; [exact Hfirst|]. split; [exact Hall|].
        exists t. rewrite lookup_delete_ne by exact Hne. split; assumption.
  - exact Habs.
  - destruct (lifetime e w h evs []) as [|[h0 r0] rest]; [exact I|].
    destruct Hinv as (Hfirst & Hall & _). split; assumption.
Qed.

End Attach.

Section AttachClaims.

Import transport.

(** C10. [PersistentDial] always returns a nil error together with a tunnel
    write queue and a channel id: the queue is the one of the endpoint's
    tunnel in the updated registry, the id is that tunnel's counter and the
    bind queue is registered under it.  The first attach to an endpoint that
    had no tunnel returns channel id 1 (and a newly made queue, and starts
    the supervisor). *)
Theorem PersistentDial_never_fails w h now e q :
  let st := PersistentDial w h now e q in
  dial_err (ds_result st) = None /\
  (exists t, EstablishedTunnels (ds_tunnel st) !! e = Some t /\
             tunnelWriteChannel t = dial_chan (ds_result st) /\
             channelIndex t = dial_id (ds_result st) /\
             bindWriteChannels t !! dial_id (ds_result st) = Some q) /\
  (EstablishedTunnels w !! e = None ->
     dial_id (ds_result st) = 1 /\
     dial_chan (ds_result st) = h /\
     ds_spawned st = Some {| sup_endpoint := e; sup_queue := h;
                             lastActivityStamp := Unix now |}).
Proof.
  unfold PersistentDial.
  destruct (EstablishedTunnels w !! e) as [t|] eqn:Hlk; cbn.
  - split; [reflexivity|]. split; [|discriminate].
    eexists. rewrite lookup_insert_eq. split; [reflexivity|]. cbn.
    rewrite lookup_insert_eq. auto.
  - split; [reflexivity|]. split; [|auto].
    eexists. rewrite lookup_insert_eq. split; [reflexivity|]. cbn.
    rewrite lookup_insert_eq. auto.
Qed.

Lemma PersistentDial_never_fails_witness :
  EstablishedTunnels sample.w0 !! sample.endpoint = None /\
  dial_id (ds_result sample.st1) = 1 /\
  dial_err (ds_result sample.st1) = None.
Proof.
  pose proof (PersistentDial_never_fails sample.w0 0%nat (1700000000 * Second)
                sample.endpoint 7%nat) as (Herr & _ & Hfirst).
  assert (Habs : EstablishedTunnels sample.w0 !! sample.endpoint = None)
    by reflexivity.
  destruct (Hfirst Habs) as (Hid & _ & _).
  split; [exact Habs|]. split; [exact Hid | exact Herr].
Defined.

(** C5 (amended). During the life of one tunnel entry, from the attach
    that creates it and as long as the supervisor's deferred delete has not
    removed it, the k-th attach to the endpoint receives the id k modulo
    2^16: ids start at 1 and grow by one per attach, whatever is done to
    other endpoints in between.  As long as at most 65535 attaches were made
    in that life, the ids are exactly 1, 2, ..., so every id differs from
    all earlier ones and 0 is not among them.  (Once the entry is removed,
    the next attach creates a new one and starts at 1 again.) *)
Theorem channel_ids_sequential w h e evs :
  EstablishedTunnels w !! e = None ->
  let ids := map (fun r => dial_id r.2) (lifetime e w h evs []) in
  let n := length ids in
  ids = map (fun k => uint16 (Z.of_nat k)) (seq 1 n) /\
  (Z.of_nat n <= 65535 ->
     ids = map Z.of_nat (seq 1 n) /\ NoDup ids /\ 0 ∉ ids).
Proof.
  intros Habs ids n.
  assert (Hmod : ids = map (fun k => uint16 (Z.of_nat k)) (seq 1 n)).
  { subst n ids. rewrite length_map. apply lifetime_ids. exact Habs. }
  split; [exact Hmod|].
  intros Hle.
  assert (Hids : ids = map Z.of_nat (seq 1 n)).
  { rewrite Hmod. apply map_ext_in. intros k Hk. apply in_seq in Hk.
    apply uint16_small. lia. }
  split; [exact Hids|]. rewrite Hids. split.
  - apply (NoDup_fmap_2 Z.of_nat). apply NoDup_seq.
  - intros Hin. apply list_elem_of_In, in_map_iff in Hin.
    destruct Hin as (k & Hk & Hseq). apply in_seq in Hseq. lia.
Qed.

Lemma channel_ids_sequential_witness :
  let evs := [EvAttach (sample.call 7%nat); EvAttach (sample.call 8%nat);
              EvDelete sample.endpoint;
              EvAttach (sample.call 7%nat); EvAttach (sample.call 8%nat);
              EvAttach (sample.call 9%nat)] in
  EstablishedTunnels sample.w0 !! sample.endpoint = None /\
  map (fun r => dial_id r.2) (lifetime sample.endpoint sample.w0 0%nat evs [])
  = [1; 2; 3].
Proof.
  intros evs.
  assert (Habs : EstablishedTunnels sample.w0 !! sample.endpoint = None)
    by reflexivity.
  split; [exact Habs|].
  destruct (channel_ids_sequential sample.w0 0%nat sample.endpoint evs Habs)
    as [_ Hseq].
  destruct Hseq as (Hids & _ & _); [vm_compute; discriminate|].
  exact Hids.
Defined.

(** C5, as stated, fails: the counter is a [uint16], so the 65536th attach
    to one endpoint receives id 0 and the 65537th receives id 1 again. *)
Lemma channel_ids_wrap_around :
  let ids := ids_for sample.endpoint
               (attach_all sample.w0 0%nat
                  (replicate (Z.to_nat 65537) (sample.call 7%nat))).2 in
  0 ∈ ids /\ ~ NoDup ids.
Proof.
  intros ids.
  assert (Hfresh : EstablishedTunnels sample.w0 !! call_endpoint (sample.call 7%nat) = None)
    by reflexivity.
  assert (Hat : forall i, (i < Z.to_nat 65537)%nat ->
                  ids !! i = Some (uint16 (Z.of_nat i + 1))).
  { intros i Hi. subst ids.
    exact (ids_replicate_lookup (Z.to_nat 65537) (sample.call 7%nat)
             sample.w0 0%nat i Hfresh Hi). }
  assert (H0 : ids !! Z.to_nat 65535 = Some 0).
  { rewrite Hat by lia. rewrite Z2Nat.id by lia. reflexivity. }
  assert (H1 : ids !! Z.to_nat 0 = Some 1).
  { rewrite Hat by lia. rewrite Z2Nat.id by lia. reflexivity. }
  assert (H2 : ids !! Z.to_nat 65536 = Some 1).
  { rewrite Hat by lia. rewrite Z2Nat.id by lia. reflexivity. }
  split.
  - eapply list_elem_of_lookup_2. exact H0.
  - intros Hnd. rewrite NoDup_alt in Hnd.
    specialize (Hnd _ _ _ H1 H2). lia.
Qed.

End AttachClaims.

(* ===================================================================== *)
(** ** The writer and the reader of a session                             *)
(* ===================================================================== *)

Section Session.

Import transport.

Lemma frame_wire w rt :
  0 <= Channel rt < 65536 ->
  frame w rt =
  bytes_of_string (ShortClientID w) ++ [Channel rt / 256; Channel rt mod 256] ++ Data rt.
Proof.
  intros Hch. unfold frame. rewrite PutUint16_big_endian by exact Hch. reflexivity.
Qed.

End Session.

(* ===================================================================== *)
(** ** Deadlines of the reader, idle shutdown of the supervisor           *)
(* ===================================================================== *)

Section Supervisor.

Import transport.

Lemma read_deadlines_app tr tr' :
  read_deadlines (tr ++ tr') = read_deadlines tr ++ read_deadlines tr'.
Proof. unfold read_deadlines. apply omap_app. Qed.

Lemma read_deadlines_reader_exit th :
  read_deadlines (trace (reader_exit th)) = read_deadlines (trace th).
Proof.
  unfold reader_exit, finish, emit. cbn [trace].
  rewrite !read_deadlines_app. cbn. rewrite !app_nil_r. reflexivity.
Qed.

Lemma read_deadlines_reader_panic th :
  read_deadlines (trace (reader_panic th)) = read_deadlines (trace th).
Proof.
  unfold reader_panic, finish, emit. cbn [trace].
  rewrite !read_deadlines_app. cbn. rewrite !app_nil_r. reflexivity.
Qed.

Lemma read_deadlines_reader_read tunnels e th res now :
  read_deadlines (trace (reader_read tunnels e th res now)) =
  read_deadlines (trace th).
Proof.
  assert (Hread : read_deadlines (trace (emit th ConnRead)) = read_deadlines (trace th)).
  { unfold emit. cbn [trace]. rewrite read_deadlines_app. cbn. apply app_nil_r. }
  unfold reader_read. destruct (rd_err res) as [msg|].
  - destruct (Contains msg "websocket: close" || Contains msg "i/o").
    + rewrite read_deadlines_reader_exit. exact Hread.
    + exact Hread.
  - destruct (Z.of_nat (length (rd_bytes res)) <? 2); [exact Hread|].
    destruct (rd_bytes res) as [|b0 [|b1 rest]]; try exact Hread.
    destruct (tunnels !! e) as [tunnel|];
      [|rewrite read_deadlines_reader_panic; exact Hread].
    destruct (bindWriteChannels tunnel !! _); [|exact Hread].
    unfold set_last. cbn [trace]. unfold emit at 1. cbn [trace].
    rewrite read_deadlines_app. cbn. rewrite app_nil_r. exact Hread.
Qed.

Lemma reader_step_extends e th i :
  exists suffix, trace (reader_step e th i) = trace th ++ suffix.
Proof.
  destruct i as [|tunnels res now]; cbn [reader_step].
  - eexists. cbn. rewrite <- !app_assoc. reflexivity.
  - unfold reader_read. destruct (rd_err res) as [msg|].
    + destruct (Contains msg "websocket: close" || Contains msg "i/o");
        eexists; cbn; rewrite <- ?app_assoc; reflexivity.
    + destruct (Z.of_nat (length (rd_bytes res)) <? 2);
        [eexists; reflexivity|].
      destruct (rd_bytes res) as [|b0 [|b1 rest]]; try (eexists; reflexivity).
      destruct (tunnels !! e) as [tunnel|];
        [|eexists; cbn; rewrite <- !app_assoc; reflexivity].
      destruct (bindWriteChannels tunnel !! _);
        eexists; cbn; rewrite <- ?app_assoc; reflexivity.
Qed.

Lemma reader_loop_extends e ins : forall th,
  exists suffix, trace (reader_loop e th ins) = trace th ++ suffix.
Proof.
  induction ins as [|i rest IH]; intros th.
  - exists []. cbn. rewrite app_nil_r. reflexivity.
  - cbn [reader_loop].
    destruct (reader_step_extends e th i) as [s1 Hs1].
    destruct (th_status (reader_step e th i)).
    + destruct (IH (reader_step e th i)) as [s2 Hs2].
      exists (s1 ++ s2). rewrite Hs2, Hs1, app_assoc. reflexivity.
    + exists s1. exact Hs1.
    + exists s1. exact Hs1.
Qed.

Lemma read_deadlines_reader_loop e ins : forall th,
  read_deadlines (trace (reader_loop e th ins)) = read_deadlines (trace th).
Proof.
  induction ins as [|i rest IH]; intros th; [reflexivity|].
  cbn [reader_loop].
  assert (Hstep : read_deadlines (trace (reader_step e th i)) = read_deadlines (trace th)).
  { destruct i as [|tunnels res now]; cbn [reader_step].
    - apply read_deadlines_reader_exit.
    - apply read_deadlines_reader_read. }
  destruct (th_status (reader_step e th i)); [rewrite IH| |]; exact Hstep.
Qed.

(** X15. However many reads a session makes, the reader sets the read
    deadline once: the call is the first of the session, before every read,
    and no later call sets it again. *)
Lemma reader_sets_deadline_once w e last now deadline_err ins :
  read_deadlines (trace (reader w e last now deadline_err ins)) =
    [Add now (seconds (ReadTimeout w))] /\
  exists rest,
    trace (reader w e last now deadline_err ins) =
      SetReadDeadline (Add now (seconds (ReadTimeout w))) :: rest /\
    read_deadlines rest = [].
Proof.
  assert (Hone : read_deadlines (trace (reader w e last now deadline_err ins)) =
                 [Add now (seconds (ReadTimeout w))]).
  { unfold reader. destruct deadline_err as [msg|].
    - rewrite read_deadlines_reader_exit. reflexivity.
    - rewrite read_deadlines_reader_loop. reflexivity. }
  split; [exact Hone|].
  assert (Hext : exists rest,
            trace (reader w e last now deadline_err ins) =
            SetReadDeadline (Add now (seconds (ReadTimeout w))) :: rest).
  { unfold reader. destruct deadline_err as [msg|].
    - eexists. reflexivity.
    - destruct (reader_loop_extends e ins
                  (emit (spawn last) (SetReadDeadline (Add now (seconds (ReadTimeout w))))))
        as [suffix Hs].
      exists suffix. rewrite Hs. reflexivity. }
  destruct Hext as [rest Hrest]. exists rest. split; [exact Hrest|].
  rewrite Hrest in Hone.
  change (SetReadDeadline (Add now (seconds (ReadTimeout w))) :: rest)
    with ([SetReadDeadline (Add now (seconds (ReadTimeout w)))] ++ rest) in Hone.
  rewrite read_deadlines_app in Hone. cbn in Hone.
  injection Hone as Hone. exact Hone.
Qed.

(** C9 fails on the read side.  With [ReadTimeout] = 30 s the reader sets
    the deadline at 1700000000 + 30 s and then reads at will: the second
    read, started after a delivery at 1700000010, runs under the deadline of
    the first, not under one set for it. *)
Theorem reader_deadline_not_per_read :
  let tunnels := EstablishedTunnels sample.w1 in
  let th := reader sample.w1 sample.endpoint 1700000000
              (1700000000 * Second) None
              [RRead tunnels {| rd_bytes := [0; 1; 104; 105]; rd_err := None |}
                 (1700000010 * Second);
               RRead tunnels {| rd_bytes := [0; 1; 33]; rd_err := None |}
                 (1700000025 * Second)] in
  trace th =
    [SetReadDeadline (1700000030 * Second);
     ConnRead; ChanSend 7%nat {| Channel := 1; Data := [104; 105] |};
     ConnRead; ChanSend 7%nat {| Channel := 1; Data := [33] |}] /\
  reads (trace th) = 2%nat /\
  read_deadlines (trace th) = [1700000030 * Second].
Proof. vm_compute. auto. Qed.

Lemma sup_loop_never_returns iters : forall w s last done,
  let r := sup_loop w s last done iters in
  sup_status r <> Returned /\ sup_tunnel r = w.
Proof.
  induction iters as [|it rest IH]; intros w s last done; cbn [sup_loop].
  - cbn. split; [discriminate | reflexivity].
  - destruct it as [|now derr rs ws]; [apply IH|].
    destruct (th_status (ses_reader (run_session w s last now derr rs ws))) eqn:Hst.
    + cbn. split; [discriminate | reflexivity].
    + apply IH.
    + cbn. split; [discriminate | reflexivity].
Qed.

(** X16. Once the check made at start-up has passed, no sequence of failed
    dials and finished sessions makes the supervisor return or touch the
    registry. *)
Lemma supervise_never_idles_out w s check_now iters :
  int64 (Unix check_now - lastActivityStamp s) <= LinkIdleTimeout w ->
  let r := supervise w s check_now iters in
  sup_status r <> Returned /\ sup_tunnel r = w.
Proof.
  intros Hcheck. unfold supervise.
  destruct (Z.gtb_spec (int64 (Unix check_now - lastActivityStamp s)) (LinkIdleTimeout w));
    [lia|].
  apply sup_loop_never_returns.
Qed.

(** C2 fails on the code.  [LinkIdleTimeout] is 120 s and the tunnel is
    created at 1700000000.  Six sessions follow one another, each ended by
    the read timing out, with no packet in either direction; the sixth
    starts at 1700000150, 150 s after the last activity.  The supervisor
    has made no idle check, is still running, and the endpoint is still
    registered. *)
Theorem supervisor_keeps_idle_tunnel :
  let timeout_at (t : Z) :=
    Session (t * Second) None
      [RRead (EstablishedTunnels sample.w1)
         {| rd_bytes := []; rd_err := Some "read tcp 10.0.0.2:443: i/o timeout" |}
         ((t + 30) * Second)]
      [WDone] in
  let r := supervise sample.w1 sample.sup1 (1700000000 * Second)
             (map timeout_at [1700000000; 1700000030; 1700000060;
                              1700000090; 1700000120; 1700000150]) in
  sup_status r = Running /\
  sup_last r = 1700000000 /\
  length (sup_sessions r) = 6%nat /\
  1700000150 - sup_last r > LinkIdleTimeout sample.w1 /\
  is_Some (EstablishedTunnels (sup_tunnel r) !! sample.endpoint).
Proof.
  vm_compute. repeat split; eauto.
Qed.

End Supervisor.

(* ===================================================================== *)
(** ** RunServer and ShutDown                                             *)
(* ===================================================================== *)

Section Glue.

Import core.

(** The chunk configuration the SOCKS server's handler carries. *)
Lemma RunServer_chunk_config config capture :
  server.ChunkConfig_ (socks5.connectHandle (s5 (RunServer config capture))) =
  chunkConfig config.
Proof. reflexivity. Qed.

(** The after-SNI range, the delay and the header length go where they
    belong; the before-SNI slot receives [SniChunksLength]. *)
Lemma chunkConfig_fields config :
  server.BeforeSniLength (chunkConfig config) = SniChunksLength config /\
  server.AfterSniLength (chunkConfig config) = ChunksLengthAfterSni config /\
  server.Delay (chunkConfig config) = DelayBetweenChunks config /\
  server.TLSHeaderLength (chunkConfig config) = TLSHeaderLength config.
Proof. repeat split. Qed.

(** [ChunksLengthBeforeSni] has no influence on the chunk configuration. *)
Lemma chunkConfig_ignores_before_sni config config' :
  SniChunksLength config = SniChunksLength config' ->
  ChunksLengthAfterSni config = ChunksLengthAfterSni config' ->
  DelayBetweenChunks config = DelayBetweenChunks config' ->
  TLSHeaderLength config = TLSHeaderLength config' ->
  chunkConfig config = chunkConfig config'.
Proof. unfold chunkConfig. intros -> -> -> ->. reflexivity. Qed.

(** C1 fails on the code.  With before-SNI range [1, 3] and SNI range
    [1, 1] configured, the server's before-SNI chunk range is [1, 1], the
    configured SNI range, and not the configured before-SNI range. *)
Theorem RunServer_before_sni_range_is_sni_range :
  let cc := server.ChunkConfig_
              (socks5.connectHandle (s5 (RunServer sample.config true))) in
  ChunksLengthBeforeSni sample.config = (1, 3) /\
  SniChunksLength sample.config = (1, 1) /\
  server.BeforeSniLength cc = (1, 1) /\
  server.BeforeSniLength cc <> ChunksLengthBeforeSni sample.config /\
  server.AfterSniLength cc = ChunksLengthAfterSni sample.config.
Proof.
  cbn. repeat split; try reflexivity. discriminate.
Qed.

(** C8 (amended). A DoH client is built exactly when the remote DNS address
    starts with "https://"; its ClientHello fragmentation is on exactly when
    [EnableDNSFragmentation] is on or both [WorkerEnabled] and
    [WorkerDNSOnly] are on. *)
Theorem dohClient_fragmentation config c :
  dohClient config = Some c ->
  HasPrefix (RemoteDNSAddr config) "https://" = true /\
  (doh.fragmentation c = true <->
   EnableDNSFragmentation config = true \/
   (WorkerEnabled config = true /\ WorkerDNSOnly config = true)).
Proof.
  unfold dohClient.
  destruct (HasPrefix (RemoteDNSAddr config) "https://"); [|discriminate].
  intros [= <-]. split; [reflexivity|]. cbn.
  destruct (WorkerEnabled config), (WorkerDNSOnly config),
    (EnableDNSFragmentation config); cbn; intuition discriminate.
Qed.

Lemma dohClient_fragmentation_witness :
  exists c,
    dohClient sample.config = Some c /\
    (doh.fragmentation c = true <->
     EnableDNSFragmentation sample.config = true \/
     (WorkerEnabled sample.config = true /\ WorkerDNSOnly sample.config = true)).
Proof.
  eexists. split; [reflexivity|].
  exact (proj2 (dohClient_fragmentation sample.config _ eq_refl)).
Defined.

(** C8, as stated, fails: with [EnableDNSFragmentation] off and the worker
    used for DNS only, the DoH client is built with fragmentation on. *)
Lemma dohClient_fragmentation_without_flag :
  ~ (forall c, dohClient sample.config = Some c ->
       (doh.fragmentation c = true <-> EnableDNSFragmentation sample.config = true)).
Proof.
  intros Hiff.
  destruct (dohClient sample.config) as [c|] eqn:Hc; [|discriminate].
  specialize (Hiff c eq_refl).
  injection Hc as <-.
  destruct Hiff as [Hon _]. specialize (Hon eq_refl). discriminate.
Qed.


(** C6 (amended). When the interrupt handler is installed, an interrupt
    invokes [ShutDown] and then exits the process with code 0. *)
Theorem interrupt_exits_zero p :
  captureCTRLC p = true ->
  interrupt p = Some (os_Exit 0 (ShutDown p).1) /\
  forall p', interrupt p = Some p' ->
    exit_code p' = Some 0 /\ socks5.listener (s5 p') = None.
Proof.
  intros Hcap. unfold interrupt. rewrite Hcap.
  split; [reflexivity|].
  intros p' [= <-]. split; reflexivity.
Qed.

Lemma interrupt_exits_zero_witness :
  captureCTRLC (RunServer sample.config true) = true /\
  interrupt (RunServer sample.config true) =
    Some (os_Exit 0 (ShutDown (RunServer sample.config true)).1).
Proof.
  split; [reflexivity|].
  exact (proj1 (interrupt_exits_zero (RunServer sample.config true) eq_refl)).
Defined.

(** C6, as stated, fails: the exit code after an interrupt is 0, not 130. *)
Lemma interrupt_exit_code_not_130 :
  ~ (exists p', interrupt (RunServer sample.config true) = Some p' /\
                exit_code p' = Some 130).
Proof.
  intros (p' & Hint & Hcode).
  injection Hint as <-. discriminate.
Qed.

End Glue.

(* ===================================================================== *)
(** ** Further properties: framing                                        *)
(* ===================================================================== *)

Section Framing.

Import transport.

Lemma PutUint16_bytes v : exists b0 b1,
  PutUint16 v = [b0; b1] /\ is_byte b0 /\ is_byte b1 /\ b0 * 256 + b1 = uint16 v.
Proof.
  exists (byte_of (Z.shiftr v 8)), (byte_of v).
  split; [reflexivity|].
  rewrite !byte_of_mod, Z.shiftr_div_pow2 by lia. change (2 ^ 8) with 256.
  unfold is_byte, uint16.
  pose proof (Z.mod_pos_bound (v / 256) 256 ltac:(lia)).
  pose proof (Z.mod_pos_bound v 256 ltac:(lia)).
  repeat split; try lia.
  change 65536 with (256 * 256).
  rewrite Z.rem_mul_r by lia. lia.
Qed.

(** What [Uint16] reads back from the two bytes [PutUint16] stored: the
    value truncated to 16 bits. *)
Lemma Uint16_of_PutUint16 v b0 b1 :
  PutUint16 v = [b0; b1] -> Uint16 b0 b1 = uint16 v.
Proof.
  intros Hput. destruct (PutUint16_bytes v) as (c0 & c1 & Hc & H0 & H1 & Hval).
  rewrite Hput in Hc. injection Hc as -> ->.
  rewrite Uint16_big_endian by assumption. exact Hval.
Qed.

Lemma PutUint16_of_bytes b0 b1 :
  is_byte b0 -> is_byte b1 -> PutUint16 (Uint16 b0 b1) = [b0; b1].
Proof.
  intros H0 H1. rewrite Uint16_big_endian by assumption.
  unfold is_byte in *. rewrite PutUint16_big_endian by lia.
  f_equal; [|f_equal].
  - rewrite Z.div_add_l by lia. rewrite Z.div_small by lia. lia.
  - rewrite Z.add_comm, Z.mod_add by lia. apply Z.mod_small. lia.
Qed.

Lemma reader_read_route tunnels e th t bs now :
  tunnels !! e = Some t ->
  reader_read tunnels e th {| rd_bytes := bs; rd_err := None |} now =
  match route t (bs, now) with
  | Some (q, pkt) => set_last (emit (emit th ConnRead) (ChanSend q pkt)) (Unix now)
  | None => emit th ConnRead
  end.
Proof.
  intros Hreg. unfold reader_read, route. cbn [rd_err rd_bytes fst snd].
  destruct bs as [|b0 [|b1 payload]]; try reflexivity.
  destruct (Z.ltb_spec (Z.of_nat (length (b0 :: b1 :: payload))) 2) as [Hlt|_];
    [cbn [length] in Hlt; lia|].
  rewrite Hreg. cbn [Channel].
  destruct (bindWriteChannels t !! Uint16 b0 b1); reflexivity.
Qed.

(** X1. Framing round trip: the frame the writer builds for a packet, with
    the client id prefix removed (as the peer's replies come), is decoded by
    the reader into the same packet, which is sent on the bind queue
    registered for its channel. *)
Theorem frame_read_round_trip w tunnels e t q th rt now :
  0 <= Channel rt < 65536 ->
  tunnels !! e = Some t ->
  bindWriteChannels t !! Channel rt = Some q ->
  let msg := drop (length (bytes_of_string (ShortClientID w))) (frame w rt) in
  trace (reader_step e th (RRead tunnels {| rd_bytes := msg; rd_err := None |} now)) =
  trace th ++ [ConnRead; ChanSend q rt].
Proof.
  intros Hch Hreg Hbind msg. subst msg. cbn [reader_step]. unfold frame.
  rewrite drop_app_length.
  destruct (PutUint16_bytes (Channel rt)) as (b0 & b1 & Hput & _ & _ & _).
  pose proof (Uint16_of_PutUint16 _ _ _ Hput) as Hdec.
  rewrite uint16_small in Hdec by exact Hch.
  rewrite Hput. cbn [app].
  rewrite (reader_read_route tunnels e th t (b0 :: b1 :: Data rt) now Hreg).
  unfold route. cbn [fst snd]. rewrite Hdec, Hbind.
  cbn. rewrite <- app_assoc. destruct rt. reflexivity.
Qed.

Lemma frame_read_round_trip_witness :
  let rt := {| Channel := 1; Data := [104; 105] |} in
  exists t,
    0 <= Channel rt < 65536 /\
    EstablishedTunnels sample.w1 !! sample.endpoint = Some t /\
    bindWriteChannels t !! Channel rt = Some 7%nat /\
    trace (reader_step sample.endpoint (spawn 1700000000)
             (RRead (EstablishedTunnels sample.w1)
                {| rd_bytes := drop (length (bytes_of_string (ShortClientID sample.w1)))
                                    (frame sample.w1 rt);
                   rd_err := None |} (1700000009 * Second))) =
    trace (spawn 1700000000) ++ [ConnRead; ChanSend 7%nat rt].
Proof.
  intros rt. eexists.
  assert (Hch : 0 <= Channel rt < 65536) by (split; vm_compute; congruence).
  split; [exact Hch|]. split; [reflexivity|]. split; [reflexivity|].
  exact (frame_read_round_trip sample.w1 (EstablishedTunnels sample.w1)
           sample.endpoint _ 7%nat (spawn 1700000000) rt (1700000009 * Second)
           Hch eq_refl eq_refl).
Defined.

(** X2. The other direction: framing the packet the reader decodes from a
    message of at least two bytes gives back that message behind the client
    id, byte for byte. *)
Theorem read_frame_round_trip w b0 b1 payload :
  is_byte b0 -> is_byte b1 ->
  frame w {| Channel := Uint16 b0 b1; Data := payload |} =
  bytes_of_string (ShortClientID w) ++ b0 :: b1 :: payload.
Proof.
  intros H0 H1. unfold frame. cbn [Channel Data].
  rewrite PutUint16_of_bytes by assumption. reflexivity.
Qed.

Lemma read_frame_round_trip_witness :
  is_byte 2 /\ is_byte 1 /\
  frame sample.w0 {| Channel := Uint16 2 1; Data := [33] |} =
  bytes_of_string (ShortClientID sample.w0) ++ [2; 1; 33].
Proof.
  assert (H0 : is_byte 2) by (unfold is_byte; lia).
  assert (H1 : is_byte 1) by (unfold is_byte; lia).
  split; [exact H0|]. split; [exact H1|].
  exact (read_frame_round_trip sample.w0 2 1 [33] H0 H1).
Defined.

(** X3. Attach, then route: once [PersistentDial] has returned an id for a
    bind queue, a message carrying that id in its first two bytes is sent by
    the reader, with its payload, on that bind queue. *)
Theorem attach_then_route w h now e q th data now' :
  let st := PersistentDial w h now e q in
  let id := dial_id (ds_result st) in
  trace (reader_step e th
           (RRead (EstablishedTunnels (ds_tunnel st))
              {| rd_bytes := PutUint16 id ++ data; rd_err := None |} now')) =
  trace th ++ [ConnRead; ChanSend q {| Channel := id; Data := data |}].
Proof.
  intros st id. cbn [reader_step].
  destruct (PersistentDial_registers w h now e q)
    as (t & Hreg & Hbind).
  fold st in Hreg, Hbind. fold id in Hbind.
  assert (Hid : uint16 id = id).
  { subst id st. rewrite PersistentDial_id.
    apply uint16_small, uint16_range. }
  destruct (PutUint16_bytes id) as (b0 & b1 & Hput & _ & _ & _).
  pose proof (Uint16_of_PutUint16 _ _ _ Hput) as Hdec. rewrite Hid in Hdec.
  rewrite Hput. cbn [app].
  rewrite (reader_read_route _ e th t (b0 :: b1 :: data) now' Hreg).
  unfold route. cbn [fst snd]. rewrite Hdec, Hbind.
  cbn. rewrite <- app_assoc. reflexivity.
Qed.

End Framing.

(* ===================================================================== *)
(** ** Further properties: the registry under attaches                    *)
(* ===================================================================== *)

Section Registry.

Import transport.

(** X4. An attach to one endpoint leaves the tunnel of every other endpoint,
    and the settings of the multiplexer, as they were. *)
Theorem PersistentDial_other_endpoints w h now e q e' :
  e <> e' ->
  let w' := ds_tunnel (PersistentDial w h now e q) in
  EstablishedTunnels w' !! e' = EstablishedTunnels w !! e' /\
  ReadTimeout w' = ReadTimeout w /\
  WriteTimeout w' = WriteTimeout w /\
  LinkIdleTimeout w' = LinkIdleTimeout w /\
  ShortClientID w' = ShortClientID w.
Proof.
  intros Hne. unfold PersistentDial.
  destruct (EstablishedTunnels w !! e) as [t|]; cbn;
    rewrite lookup_insert_ne by exact Hne; auto.
Qed.

Lemma PersistentDial_other_endpoints_witness :
  sample.endpoint <> "wss://other.example/udp" /\
  EstablishedTunnels
    (ds_tunnel (PersistentDial sample.w1 1%nat 0 "wss://other.example/udp" 9%nat))
    !! sample.endpoint
  = EstablishedTunnels sample.w1 !! sample.endpoint.
Proof.
  assert (Hne : "wss://other.example/udp" <> sample.endpoint) by discriminate.
  split; [congruence|].
  exact (proj1 (PersistentDial_other_endpoints sample.w1 1%nat 0
                  "wss://other.example/udp" 9%nat sample.endpoint Hne)).
Defined.

(** X5. An attach to an endpoint that has a tunnel keeps the tunnel's write
    queue, starts no supervisor and makes no channel; the bind queues
    registered under other ids stay, and the id returned now leads to the
    new bind queue, whatever was registered under it before. *)
Theorem PersistentDial_existing_tunnel w h now e q t :
  EstablishedTunnels w !! e = Some t ->
  let st := PersistentDial w h now e q in
  let id := uint16 (channelIndex t + 1) in
  dial_id (ds_result st) = id /\
  dial_chan (ds_result st) = tunnelWriteChannel t /\
  ds_spawned st = None /\
  ds_heap st = h /\
  exists t', EstablishedTunnels (ds_tunnel st) !! e = Some t' /\
             tunnelWriteChannel t' = tunnelWriteChannel t /\
             channelIndex t' = id /\
             forall k, bindWriteChannels t' !! k =
                       if decide (id = k) then Some q else bindWriteChannels t !! k.
Proof.
  intros Hreg. unfold PersistentDial. rewrite Hreg. cbn.
  repeat (split; [reflexivity|]).
  eexists. rewrite lookup_insert_eq. split; [reflexivity|]. cbn.
  repeat (split; [reflexivity|]).
  intros k. apply lookup_insert.
Qed.

Lemma PersistentDial_existing_tunnel_witness :
  exists t,
    EstablishedTunnels sample.w1 !! sample.endpoint = Some t /\
    dial_id (ds_result (PersistentDial sample.w1 1%nat 0 sample.endpoint 8%nat))
    = uint16 (channelIndex t + 1) /\
    dial_chan (ds_result (PersistentDial sample.w1 1%nat 0 sample.endpoint 8%nat))
    = tunnelWriteChannel t.
Proof.
  eexists. split; [reflexivity|].
  pose proof (PersistentDial_existing_tunnel sample.w1 1%nat 0 sample.endpoint
                8%nat _ eq_refl) as (Hid & Hchan & _).
  split; [exact Hid | exact Hchan].
Defined.

Lemma bind_dom_attach w h now e q :
  bind_dom (ds_tunnel (PersistentDial w h now e q)) e =
  bind_dom w e ∪ {[dial_id (ds_result (PersistentDial w h now e q))]}.
Proof.
  unfold bind_dom, PersistentDial.
  destruct (EstablishedTunnels w !! e) as [t|] eqn:Hlk; cbn;
    rewrite lookup_insert_eq; cbn; rewrite dom_insert_L.
  - set_solver.
  - rewrite dom_empty_L. set_solver.
Qed.

Lemma bind_dom_attach_other w h now e q e' :
  e <> e' ->
  bind_dom (ds_tunnel (PersistentDial w h now e q)) e' = bind_dom w e'.
Proof.
  intros Hne. unfold bind_dom.
  rewrite (proj1 (PersistentDial_other_endpoints_aux w h now e q e' Hne)).
  reflexivity.
Qed.

(** X6. The ids registered for an endpoint after a sequence of attaches are
    those registered before together with those handed out for it: every id
    handed out is registered and no other id appears. *)
Theorem registered_ids_are_those_handed_out calls : forall w h e,
  bind_dom (attach_all w h calls).1.1 e =
  bind_dom w e ∪ list_to_set (ids_for e (attach_all w h calls).2).
Proof.
  induction calls as [|c rest IH]; intros w h e.
  - cbn. set_solver.
  - cbn [attach_all].
    specialize (IH (ds_tunnel (PersistentDial w h (call_now c) (call_endpoint c) (call_bind c)))
                   (ds_heap (PersistentDial w h (call_now c) (call_endpoint c) (call_bind c))) e).
    destruct (attach_all _ _ rest) as [[w' h'] rs]. cbn [fst snd] in *.
    rewrite IH. unfold ids_for. rewrite filter_cons. cbn [fst].
    destruct (decide (call_endpoint c = e)) as [Heq | Hne].
    + subst e. rewrite bind_dom_attach. cbn [map snd list_to_set]. set_solver.
    + rewrite bind_dom_attach_other by exact Hne. reflexivity.
Qed.

(** X7. The ids handed out for an endpoint do not depend on the attaches
    made to other endpoints in between. *)
Theorem ids_independent_of_other_endpoints w h e calls :
  ids_for e (attach_all w h calls).2 =
  ids_for e (attach_all w h (filter (fun c => call_endpoint c = e) calls)).2.
Proof.
  rewrite !ids_for_attach_all. unfold attaches_to.
  rewrite list_filter_filter.
  f_equal. f_equal. f_equal.
  apply list_filter_iff. intros c. tauto.
Qed.

(** X24. The id returned by an attach is a [uint16]; it is the reserved id 0
    exactly when the endpoint has a tunnel whose counter stands at 65535. *)
Theorem PersistentDial_id_zero_iff w h now e q :
  let id := dial_id (ds_result (PersistentDial w h now e q)) in
  0 <= id < 65536 /\
  (id = 0 <->
   exists t, EstablishedTunnels w !! e = Some t /\ uint16 (channelIndex t) = 65535).
Proof.
  cbv zeta. rewrite PersistentDial_id. split; [apply uint16_range|].
  unfold index_of. destruct (EstablishedTunnels w !! e) as [t|].
  - split.
    + intros Hz. exists t. split; [reflexivity|].
      unfold uint16 in *. Z.div_mod_to_equations. lia.
    + intros (t' & [= <-] & Hc).
      unfold uint16 in *. Z.div_mod_to_equations. lia.
  - split; [discriminate|]. intros (t' & Habs & _). discriminate.
Qed.

End Registry.

(* ===================================================================== *)
(** ** Further properties: tunnel write queues                            *)
(* ===================================================================== *)

Section Queues.

Import transport.

(** X8. During the life of one tunnel entry, from the attach that creates
    it and as long as the supervisor's deferred delete has not removed it,
    every attach to the endpoint returns the same tunnel write queue: the
    channel that [make] gave to the attach that created the entry. *)
Theorem attaches_share_write_queue w h e evs :
  EstablishedTunnels w !! e = None ->
  match lifetime e w h evs [] with
  | [] => True
  | (h0, r0) :: rest =>
      dial_chan r0 = (make_chan h0).1 /\
      Forall (fun hr => dial_chan hr.2 = dial_chan r0) rest
  end.
Proof. apply lifetime_queue. Qed.

Lemma attaches_share_write_queue_witness :
  let evs := [EvAttach (sample.call 7%nat);
              EvDelete sample.endpoint;
              EvAttach (sample.call 8%nat); EvAttach (sample.call 9%nat)] in
  EstablishedTunnels sample.w0 !! sample.endpoint = None /\
  match lifetime sample.endpoint sample.w0 0%nat evs [] with
  | [] => True
  | (h0, r0) :: rest =>
      dial_chan r0 = (make_chan h0).1 /\
      Forall (fun hr => dial_chan hr.2 = dial_chan r0) rest
  end.
Proof.
  intros evs.
  assert (Habs : EstablishedTunnels sample.w0 !! sample.endpoint = None)
    by reflexivity.
  split; [exact Habs|].
  exact (attaches_share_write_queue sample.w0 0%nat sample.endpoint evs Habs).
Defined.

Lemma PersistentDial_queues w h now e q :
  queues_allocated w h -> queues_distinct w ->
  queues_allocated (ds_tunnel (PersistentDial w h now e q))
                   (ds_heap (PersistentDial w h now e q)) /\
  queues_distinct (ds_tunnel (PersistentDial w h now e q)).
Proof.
  intros Halloc Hdist.
  assert (Hother : forall e', e <> e' ->
            EstablishedTunnels (ds_tunnel (PersistentDial w h now e q)) !! e' =
            EstablishedTunnels w !! e')
    by (intros e' Hne; apply PersistentDial_other_endpoints_aux; exact Hne).
  destruct (EstablishedTunnels w !! e) as [t|] eqn:Hlk.
  - destruct (PersistentDial_existing_aux w h now e q t Hlk)
      as (_ & Hheap & t' & Hreg' & Hq).
    rewrite Hheap. split.
    + intros e0 t0 H0. destruct (decide (e = e0)) as [<- | Hne].
      * rewrite Hreg' in H0. injection H0 as <-. rewrite Hq. eapply Halloc, Hlk.
      * rewrite Hother in H0 by exact Hne. eapply Halloc, H0.
    + intros e1 e2 t1 t2 H1 H2 Heq.
      destruct (decide (e = e1)) as [<- | Hne1], (decide (e = e2)) as [<- | Hne2];
        [reflexivity | | |].
      * rewrite Hreg' in H1. injection H1 as <-.
        rewrite Hother in H2 by exact Hne2. rewrite Hq in Heq.
        exact (Hdist _ _ _ _ Hlk H2 Heq).
      * rewrite Hreg' in H2. injection H2 as <-.
        rewrite Hother in H1 by exact Hne1. rewrite Hq in Heq.
        exact (Hdist _ _ _ _ H1 Hlk Heq).
      * rewrite Hother in H1 by exact Hne1. rewrite Hother in H2 by exact Hne2.
        exact (Hdist _ _ _ _ H1 H2 Heq).
  - destruct (PersistentDial_fresh_aux w h now e q Hlk)
      as (_ & Hheap & t' & Hreg' & Hq).
    rewrite Hheap. split.
    + intros e0 t0 H0. destruct (decide (e = e0)) as [<- | Hne].
      * rewrite Hreg' in H0. injection H0 as <-. rewrite Hq. lia.
      * rewrite Hother in H0 by exact Hne. pose proof (Halloc _ _ H0). lia.
    + intros e1 e2 t1 t2 H1 H2 Heq.
      destruct (decide (e = e1)) as [<- | Hne1], (decide (e = e2)) as [<- | Hne2];
        [reflexivity | | |].
      * rewrite Hreg' in H1. injection H1 as <-.
        rewrite Hother in H2 by exact Hne2. rewrite Hq in Heq.
        pose proof (Halloc _ _ H2). lia.
      * rewrite Hreg' in H2. injection H2 as <-.
        rewrite Hother in H1 by exact Hne1. rewrite Hq in Heq.
        pose proof (Halloc _ _ H1). lia.
      * rewrite Hother in H1 by exact Hne1. rewrite Hother in H2 by exact Hne2.
        exact (Hdist _ _ _ _ H1 H2 Heq).
Qed.

(** X9. Attaches keep the tunnel write queues apart: if every registered
    queue is a channel already made and no two endpoints share one, the same
    holds after any sequence of attaches. *)
Theorem attaches_keep_queues_distinct calls : forall w h,
  queues_allocated w h -> queues_distinct w ->
  queues_allocated (attach_all w h calls).1.1 (attach_all w h calls).1.2 /\
  queues_distinct (attach_all w h calls).1.1.
Proof.
  induction calls as [|c rest IH]; intros w h Halloc Hdist; [split; assumption|].
  cbn [attach_all].
  destruct (PersistentDial_queues w h (call_now c) (call_endpoint c) (call_bind c)
              Halloc Hdist) as [Halloc' Hdist'].
  specialize (IH _ _ Halloc' Hdist').
  destruct (attach_all _ _ rest) as [[w' h'] rs]. exact IH.
Qed.

Lemma attaches_keep_queues_distinct_witness :
  let calls := [sample.call 7%nat;
                {| call_now := 0; call_endpoint := "wss://other.example/udp";
                   call_bind := 8%nat |}] in
  queues_allocated sample.w0 0%nat /\
  queues_distinct sample.w0 /\
  queues_distinct (attach_all sample.w0 0%nat calls).1.1.
Proof.
  intros calls.
  assert (Halloc : queues_allocated sample.w0 0%nat)
    by (intros e t H; cbn in H; rewrite lookup_empty in H; discriminate).
  assert (Hdist : queues_distinct sample.w0)
    by (intros e1 e2 t1 t2 H; cbn in H; rewrite lookup_empty in H; discriminate).
  split; [exact Halloc|]. split; [exact Hdist|].
  exact (proj2 (attaches_keep_queues_distinct calls sample.w0 0%nat Halloc Hdist)).
Defined.

End Queues.

(* ===================================================================== *)
(** ** Further properties: whole runs of the writer and of the reader     *)
(* ===================================================================== *)

Section Runs.

Import transport.

Lemma conn_writes_app tr tr' :
  conn_writes (tr ++ tr') = conn_writes tr ++ conn_writes tr'.
Proof. unfold conn_writes. apply omap_app. Qed.

Lemma chan_sends_app tr tr' :
  chan_sends (tr ++ tr') = chan_sends tr ++ chan_sends tr'.
Proof. unfold chan_sends. apply omap_app. Qed.

Lemma closes_app tr tr' : closes (tr ++ tr') = closes tr ++ closes tr'.
Proof. unfold closes. apply List.filter_app. Qed.

Lemma writes_guarded_armed tr armed :
  writes_guarded false tr = true -> writes_guarded armed tr = true.
Proof.
  destruct armed; [|auto].
  destruct tr as [|[] rest]; cbn; auto. discriminate.
Qed.

Lemma writes_guarded_app tr tr' : forall armed,
  writes_guarded armed tr = true ->
  writes_guarded false tr' = true ->
  writes_guarded armed (tr ++ tr') = true.
Proof.
  induction tr as [|e rest IH]; intros armed Htr Htr'.
  - cbn. apply writes_guarded_armed. exact Htr'.
  - destruct e; cbn in *; try (apply IH; assumption).
    apply andb_true_iff in Htr as [-> Hrest]. cbn. apply IH; assumption.
Qed.

Lemma writer_step_trace w th i :
  trace (writer_step w th i) = trace th ++ writer_chunk w i.
Proof.
  destruct i as [|rt now [derr|] [werr|] now']; cbn;
    rewrite <- ?app_assoc; reflexivity.
Qed.

Lemma writer_step_status w th i :
  th_status (writer_step w th i) =
  match i with
  | WPacket _ _ None None _ => th_status th
  | _ => Returned
  end.
Proof. destruct i as [|rt now [derr|] [werr|] now']; reflexivity. Qed.

Lemma writer_loop_sent_ok w pkts : forall th0,
  th_status th0 = Running ->
  conn_writes (trace (writer_loop w th0 (map sent_ok pkts))) =
    conn_writes (trace th0) ++ map (fun p => frame w p.1.1) pkts /\
  th_status (writer_loop w th0 (map sent_ok pkts)) = Running.
Proof.
  induction pkts as [|p rest IH]; intros th0 Hrun.
  - cbn. rewrite app_nil_r. auto.
  - cbn [map writer_loop].
    pose proof (writer_step_status w th0 (sent_ok p)) as Hst.
    pose proof (writer_step_trace w th0 (sent_ok p)) as Htr.
    unfold sent_ok in Hst, Htr. cbn [writer_chunk] in Htr.
    fold (sent_ok p) in Hst, Htr.
    rewrite Hst, Hrun.
    destruct (IH (writer_step w th0 (sent_ok p))) as [Hw Hs];
      [rewrite Hst; exact Hrun|].
    split; [|exact Hs].
    rewrite Hw, Htr, conn_writes_app. cbn. rewrite <- app_assoc. reflexivity.
Qed.

(** X10. Packets whose deadline call and write succeed leave the writer
    running, and the frames written are those of the packets, in the order
    they were taken from the queue, one write each. *)
Theorem writer_writes_in_order w last pkts :
  let th := writer w last (map sent_ok pkts) in
  conn_writes (trace th) = map (fun p => frame w p.1.1) pkts /\
  th_status th = Running.
Proof.
  unfold writer. cbv zeta.
  destruct (writer_loop_sent_ok w pkts (spawn last) eq_refl) as [Hw Hs].
  split; [exact Hw | exact Hs].
Qed.

Lemma writer_loop_then_stop w i rest pkts : forall th0,
  th_status th0 = Running ->
  writer_stops i = true ->
  writer_loop w th0 (map sent_ok pkts ++ i :: rest) =
  writer_step w (writer_loop w th0 (map sent_ok pkts)) i.
Proof.
  induction pkts as [|p more IH]; intros th0 Hrun Hstop.
  - cbn [map app writer_loop]. rewrite writer_step_status.
    destruct i as [|rt now [derr|] [werr|] now']; try reflexivity. discriminate.
  - cbn [map app writer_loop].
    pose proof (writer_step_status w th0 (sent_ok p)) as Hst.
    unfold sent_ok in Hst. fold (sent_ok p) in Hst.
    rewrite Hst, Hrun. apply IH; [rewrite Hst; exact Hrun | exact Hstop].
Qed.

(** X21. The writer stops at the first packet whose deadline call or write
    fails, and when [done] fires: what was queued behind is not taken.  The
    frames written are those of the packets before, followed by the frame of
    the failing packet if its deadline had been set. *)
Theorem writer_stops_at_first_failure w last pkts i rest :
  writer_stops i = true ->
  let th := writer w last (map sent_ok pkts ++ i :: rest) in
  th = writer w last (map sent_ok pkts ++ [i]) /\
  th_status th = Returned /\
  conn_writes (trace th) =
    map (fun p => frame w p.1.1) pkts ++
    match i with
    | WPacket rt _ None _ _ => [frame w rt]
    | _ => []
    end.
Proof.
  intros Hstop. unfold writer. cbv zeta.
  rewrite !(writer_loop_then_stop w i _ pkts (spawn last) eq_refl Hstop).
  split; [reflexivity|].
  destruct (writer_loop_sent_ok w pkts (spawn last) eq_refl) as [Hw Hs].
  split.
  - rewrite writer_step_status.
    destruct i as [|rt now [derr|] [werr|] now']; try reflexivity. discriminate.
  - rewrite writer_step_trace, conn_writes_app, Hw. cbn [spawn trace conn_writes omap app].
    f_equal.
    destruct i as [|rt now [derr|] [werr|] now']; reflexivity.
Qed.

Lemma writer_stops_at_first_failure_witness :
  let i := WPacket {| Channel := 2; Data := [1] |} 0 None (Some "broken pipe") 0 in
  let pkts := [({| Channel := 1; Data := [104] |}, 0, 0)] in
  writer_stops i = true /\
  writer sample.w0 0 (map sent_ok pkts ++ i :: [WDone]) =
  writer sample.w0 0 (map sent_ok pkts ++ [i]).
Proof.
  intros i pkts. split; [reflexivity|].
  exact (proj1 (writer_stops_at_first_failure sample.w0 0 pkts i [WDone] eq_refl)).
Defined.

(** X11. In every run of the writer, each write on the connection directly
    follows a call setting the write deadline. *)
Theorem writer_sets_deadline_per_write w last ins :
  writes_guarded false (trace (writer w last ins)) = true.
Proof.
  unfold writer.
  assert (Hloop : forall th, writes_guarded false (trace th) = true ->
            writes_guarded false (trace (writer_loop w th ins)) = true).
  { induction ins as [|i rest IH]; intros th Hth; [exact Hth|].
    cbn [writer_loop].
    assert (Hstep : writes_guarded false (trace (writer_step w th i)) = true).
    { rewrite writer_step_trace. apply writes_guarded_app; [exact Hth|].
      destruct i as [|rt now [derr|] [werr|] now']; reflexivity. }
    destruct (th_status (writer_step w th i)); [apply IH| |]; exact Hstep. }
  apply Hloop. reflexivity.
Qed.

(** X12. The writer never panics.  While it runs it has closed nothing; when
    it has returned, its last two calls are [close(doneR)] and
    [conn.Close()], and it closed nothing before. *)
Theorem writer_closes_once w last ins :
  match th_status (writer w last ins) with
  | Running => closes (trace (writer w last ins)) = []
  | Returned =>
      exists pre, trace (writer w last ins) = pre ++ [CloseSignal false; ConnClose] /\
                  closes pre = []
  | Panicked => False
  end.
Proof.
  unfold writer.
  assert (Hloop : forall th, th_status th = Running -> closes (trace th) = [] ->
            match th_status (writer_loop w th ins) with
            | Running => closes (trace (writer_loop w th ins)) = []
            | Returned =>
                exists pre, trace (writer_loop w th ins) =
                            pre ++ [CloseSignal false; ConnClose] /\
                            closes pre = []
            | Panicked => False
            end).
  { induction ins as [|i rest IH]; intros th Hrun Hcl.
    - cbn. rewrite Hrun. exact Hcl.
    - cbn [writer_loop].
      pose proof (writer_step_status w th i) as Hst.
      pose proof (writer_step_trace w th i) as Htr.
      destruct i as [|rt now [derr|] [werr|] now']; cbn [writer_chunk] in Htr;
        rewrite Hst; try rewrite Hrun.
      + rewrite Htr. exists (trace th). split; [reflexivity | exact Hcl].
      + rewrite Htr.
        exists (trace th ++ [SetWriteDeadline (Add now (seconds (WriteTimeout w)))]).
        split; [rewrite <- app_assoc; reflexivity|].
        rewrite closes_app, Hcl. reflexivity.
      + rewrite Htr.
        exists (trace th ++ [SetWriteDeadline (Add now (seconds (WriteTimeout w)))]).
        split; [rewrite <- app_assoc; reflexivity|].
        rewrite closes_app, Hcl. reflexivity.
      + rewrite Htr.
        exists (trace th ++ [SetWriteDeadline (Add now (seconds (WriteTimeout w)));
                             ConnWrite (frame w rt)]).
        split; [rewrite <- app_assoc; reflexivity|].
        rewrite closes_app, Hcl. reflexivity.
      + apply IH; [rewrite Hst; exact Hrun|].
        rewrite Htr, closes_app, Hcl. reflexivity. }
  apply Hloop; reflexivity.
Qed.

Lemma reads_app tr tr' : reads (tr ++ tr') = (reads tr + reads tr')%nat.
Proof. unfold reads. rewrite omap_app. apply length_app. Qed.

Lemma reader_loop_read_ok tunnels e t msgs :
  tunnels !! e = Some t ->
  forall th0, th_status th0 = Running ->
    let r := reader_loop e th0 (map (read_ok tunnels) msgs) in
    chan_sends (trace r) = chan_sends (trace th0) ++ omap (route t) msgs /\
    reads (trace r) = (reads (trace th0) + length msgs)%nat /\
    th_status r = Running.
Proof.
  intros Hreg.
  induction msgs as [|m rest IH]; intros th0 Hrun.
  - cbn. rewrite app_nil_r. split; [reflexivity|]. split; [lia | exact Hrun].
  - cbn [map reader_loop].
    set (th1 := reader_step e th0 (read_ok tunnels m)).
    assert (H1 : th_status th1 = Running /\
                 chan_sends (trace th1) =
                   chan_sends (trace th0) ++ omap (route t) [m] /\
                 reads (trace th1) = S (reads (trace th0))).
    { subst th1. unfold read_ok. cbn [reader_step].
      rewrite (reader_read_route tunnels e th0 t m.1 m.2 Hreg).
      replace (m.1, m.2) with m by (destruct m; reflexivity).
      destruct (route t m) as [[q pkt]|] eqn:Hroute.
      - cbn [th_status set_last emit trace].
        rewrite !chan_sends_app, !reads_app. cbn. rewrite Hroute.
        rewrite app_nil_r. split; [exact Hrun|]. split; [reflexivity | lia].
      - cbn [th_status emit trace].
        rewrite !chan_sends_app, !reads_app. cbn. rewrite Hroute.
        split; [exact Hrun|]. split; [reflexivity | lia]. }
    destruct H1 as (Hst1 & Hs1 & Hr1). rewrite Hst1.
    destruct (IH th1 Hst1) as (Hs & Hr & Hst).
    split; [|split; [|exact Hst]].
    + rewrite Hs, Hs1. cbn.
      destruct (route t m); cbn; rewrite <- ?app_assoc, ?app_nil_r; reflexivity.
    + rewrite Hr, Hr1. cbn [length]. lia.
Qed.

(** X13. Messages read without error, while the endpoint's tunnel is [t],
    leave the reader running; one read is made per message, and the packets
    sent on bind queues are the routable messages, in arrival order, each
    once: short messages and messages for an unregistered channel produce
    nothing. *)
Theorem reader_delivers_in_order w tunnels e t last now msgs :
  tunnels !! e = Some t ->
  let th := reader w e last now None (map (read_ok tunnels) msgs) in
  chan_sends (trace th) = omap (route t) msgs /\
  reads (trace th) = length msgs /\
  th_status th = Running.
Proof.
  intros Hreg. unfold reader. cbv zeta.
  destruct (reader_loop_read_ok tunnels e t msgs Hreg
              (emit (spawn last) (SetReadDeadline (Add now (seconds (ReadTimeout w)))))
              eq_refl) as (Hs & Hr & Hst).
  split; [exact Hs|]. split; [exact Hr | exact Hst].
Qed.

Lemma reader_delivers_in_order_witness :
  exists t,
    EstablishedTunnels sample.w1 !! sample.endpoint = Some t /\
    chan_sends (trace (reader sample.w1 sample.endpoint 1700000000
                         (1700000000 * Second) None
                         (map (read_ok (EstablishedTunnels sample.w1))
                              [([0; 1; 104], 1700000001 * Second);
                               ([9], 1700000002 * Second);
                               ([0; 2; 105], 1700000003 * Second);
                               ([0; 1; 106], 1700000004 * Second)])))
    = omap (route t) [([0; 1; 104], 1700000001 * Second);
                      ([9], 1700000002 * Second);
                      ([0; 2; 105], 1700000003 * Second);
                      ([0; 1; 106], 1700000004 * Second)].
Proof.
  eexists. split; [reflexivity|].
  exact (proj1 (reader_delivers_in_order sample.w1 (EstablishedTunnels sample.w1)
                  sample.endpoint _ 1700000000 (1700000000 * Second) _ eq_refl)).
Defined.

Lemma reader_step_read_ok_status tunnels e t th0 m :
  tunnels !! e = Some t ->
  th_status (reader_step e th0 (read_ok tunnels m)) = th_status th0.
Proof.
  intros Hreg. unfold read_ok. cbn [reader_step].
  rewrite (reader_read_route tunnels e th0 t m.1 m.2 Hreg).
  destruct (route t (m.1, m.2)) as [[q pkt]|]; reflexivity.
Qed.

Lemma reader_loop_app_ok tunnels e t msgs tail :
  tunnels !! e = Some t ->
  forall th0, th_status th0 = Running ->
    reader_loop e th0 (map (read_ok tunnels) msgs ++ tail) =
    reader_loop e (reader_loop e th0 (map (read_ok tunnels) msgs)) tail.
Proof.
  intros Hreg. induction msgs as [|m rest IH]; intros th0 Hrun; [reflexivity|].
  cbn [map app reader_loop].
  rewrite (reader_step_read_ok_status tunnels e t th0 m Hreg), Hrun.
  apply IH. rewrite (reader_step_read_ok_status tunnels e t th0 m Hreg). exact Hrun.
Qed.

(** X22. A read error whose text contains "websocket: close" or "i/o" ends
    the reader: the bytes returned with it are not delivered and nothing is
    read after it.  What was delivered before stays as it was. *)
Theorem reader_stops_at_fatal_error w tunnels e t last now msgs tunnels' bs msg now' rest :
  tunnels !! e = Some t ->
  fatal msg = true ->
  let th := reader w e last now None
              (map (read_ok tunnels) msgs
               ++ RRead tunnels' {| rd_bytes := bs; rd_err := Some msg |} now' :: rest) in
  th_status th = Returned /\
  chan_sends (trace th) = omap (route t) msgs /\
  reads (trace th) = S (length msgs).
Proof.
  intros Hreg Hfatal. unfold reader. cbv zeta.
  set (th0 := emit (spawn last) (SetReadDeadline (Add now (seconds (ReadTimeout w))))).
  rewrite (reader_loop_app_ok tunnels e t msgs _ Hreg th0 eq_refl).
  destruct (reader_loop_read_ok tunnels e t msgs Hreg th0 eq_refl) as (Hs & Hr & Hst).
  cbn [reader_loop reader_step]. unfold reader_read. cbn [rd_err].
  unfold fatal in Hfatal. rewrite Hfatal.
  cbn [reader_exit finish emit th_status trace].
  split; [reflexivity|].
  rewrite !chan_sends_app, !reads_app, Hs, Hr. cbn.
  rewrite !app_nil_r. split; [reflexivity | lia].
Qed.

Lemma reader_stops_at_fatal_error_witness :
  exists t,
    EstablishedTunnels sample.w1 !! sample.endpoint = Some t /\
    fatal "read tcp 10.0.0.2:443: i/o timeout" = true /\
    th_status (reader sample.w1 sample.endpoint 1700000000 (1700000000 * Second) None
                 (map (read_ok (EstablishedTunnels sample.w1))
                      [([0; 1; 104], 1700000001 * Second)]
                  ++ RRead (EstablishedTunnels sample.w1)
                       {| rd_bytes := [0; 1; 105];
                          rd_err := Some "read tcp 10.0.0.2:443: i/o timeout" |}
                       (1700000030 * Second)
                     :: [RDoneR]))
    = Returned.
Proof.
  eexists. split; [reflexivity|]. split; [reflexivity|].
  exact (proj1 (reader_stops_at_fatal_error sample.w1 (EstablishedTunnels sample.w1)
                  sample.endpoint _ 1700000000 (1700000000 * Second)
                  [([0; 1; 104], 1700000001 * Second)]
                  (EstablishedTunnels sample.w1) [0; 1; 105]
                  "read tcp 10.0.0.2:443: i/o timeout" (1700000030 * Second)
                  [RDoneR] eq_refl eq_refl)).
Defined.

(** X23. Any other read error is passed over: the bytes returned with it
    are not delivered, the reader goes on, and the messages read after it
    are delivered as if the failed read had not been made. *)
Theorem reader_skips_other_errors w tunnels e t last now msgs tunnels' bs msg now' msgs' :
  tunnels !! e = Some t ->
  fatal msg = false ->
  let th := reader w e last now None
              (map (read_ok tunnels) msgs
               ++ RRead tunnels' {| rd_bytes := bs; rd_err := Some msg |} now'
                  :: map (read_ok tunnels) msgs') in
  th_status th = Running /\
  chan_sends (trace th) = omap (route t) (msgs ++ msgs') /\
  reads (trace th) = S (length msgs + length msgs').
Proof.
  intros Hreg Hfatal. unfold reader. cbv zeta.
  set (th0 := emit (spawn last) (SetReadDeadline (Add now (seconds (ReadTimeout w))))).
  rewrite (reader_loop_app_ok tunnels e t msgs _ Hreg th0 eq_refl).
  destruct (reader_loop_read_ok tunnels e t msgs Hreg th0 eq_refl) as (Hs & Hr & Hst).
  cbn [reader_loop reader_step]. unfold reader_read. cbn [rd_err].
  unfold fatal in Hfatal. rewrite Hfatal.
  cbn [emit th_status]. cbv zeta in Hst. rewrite Hst.
  match goal with
  | |- context [reader_loop e ?th1 (map (read_ok tunnels) msgs')] =>
      destruct (reader_loop_read_ok tunnels e t msgs' Hreg th1 Hst) as (Hs' & Hr' & Hst')
  end.
  split; [exact Hst'|].
  rewrite Hs', Hr'. cbn [trace emit].
  rewrite !chan_sends_app, !reads_app, Hs, Hr, omap_app. cbn.
  rewrite !app_nil_r. split; [reflexivity | lia].
Qed.

Lemma reader_skips_other_errors_witness :
  exists t,
    EstablishedTunnels sample.w1 !! sample.endpoint = Some t /\
    fatal "websocket: read limit exceeded" = false /\
    th_status (reader sample.w1 sample.endpoint 1700000000 (1700000000 * Second) None
                 (map (read_ok (EstablishedTunnels sample.w1))
                      [([0; 1; 104], 1700000001 * Second)]
                  ++ RRead (EstablishedTunnels sample.w1)
                       {| rd_bytes := []; rd_err := Some "websocket: read limit exceeded" |}
                       (1700000002 * Second)
                     :: map (read_ok (EstablishedTunnels sample.w1))
                          [([0; 1; 105], 1700000003 * Second)]))
    = Running.
Proof.
  eexists. split; [reflexivity|]. split; [reflexivity|].
  exact (proj1 (reader_skips_other_errors sample.w1 (EstablishedTunnels sample.w1)
                  sample.endpoint _ 1700000000 (1700000000 * Second)
                  [([0; 1; 104], 1700000001 * Second)]
                  (EstablishedTunnels sample.w1) []
                  "websocket: read limit exceeded" (1700000002 * Second)
                  [([0; 1; 105], 1700000003 * Second)] eq_refl eq_refl)).
Defined.

Lemma reader_step_closes e th i :
  th_status th = Running -> closes (trace th) = [] ->
  match th_status (reader_step e th i) with
  | Running => closes (trace (reader_step e th i)) = []
  | _ =>
      exists pre, trace (reader_step e th i) = pre ++ [CloseSignal true; ConnClose] /\
                  closes pre = []
  end.
Proof.
  intros Hrun Hcl.
  assert (Hexit : forall th0, closes (trace th0) = [] ->
            exists pre, trace (reader_exit th0) = pre ++ [CloseSignal true; ConnClose] /\
                        closes pre = []).
  { intros th0 H0. exists (trace th0). split; [|exact H0].
    cbn. rewrite <- app_assoc. reflexivity. }
  assert (Hread : closes (trace (emit th ConnRead)) = [])
    by (cbn [emit trace]; rewrite closes_app, Hcl; reflexivity).
  destruct i as [|tunnels res now]; cbn [reader_step].
  - cbn [reader_exit finish th_status]. apply Hexit. exact Hcl.
  - unfold reader_read. destruct (rd_err res) as [msg|].
    + destruct (Contains msg "websocket: close" || Contains msg "i/o").
      * cbn [reader_exit finish th_status]. apply Hexit. exact Hread.
      * cbn [emit th_status]. rewrite Hrun. exact Hread.
    + destruct (Z.of_nat (length (rd_bytes res)) <? 2);
        [cbn [emit th_status]; rewrite Hrun; exact Hread|].
      destruct (rd_bytes res) as [|b0 [|b1 rest]];
        try (cbn [emit th_status]; rewrite Hrun; exact Hread).
      destruct (tunnels !! e) as [tunnel|].
      * destruct (bindWriteChannels tunnel !! _);
          [|cbn [emit th_status]; rewrite Hrun; exact Hread].
        cbn [set_last emit th_status trace]. rewrite Hrun.
        rewrite closes_app. cbn [emit trace] in Hread. rewrite Hread. reflexivity.
      * cbn [reader_panic finish th_status].
        exists (trace (emit th ConnRead)). split; [|exact Hread].
        cbn. rewrite <- !app_assoc. reflexivity.
Qed.

(** X14. While the reader runs it has closed nothing.  When it has stopped,
    by returning or by the panic on a nil tunnel entry (the deferred calls
    run while the panic unwinds), its last two calls are [close(done)] and
    [conn.Close()], and it closed nothing before. *)
Theorem reader_closes_once w e last now deadline_err ins :
  match th_status (reader w e last now deadline_err ins) with
  | Running => closes (trace (reader w e last now deadline_err ins)) = []
  | _ =>
      exists pre, trace (reader w e last now deadline_err ins) =
                  pre ++ [CloseSignal true; ConnClose] /\
                  closes pre = []
  end.
Proof.
  unfold reader. destruct deadline_err as [msg|].
  - cbn [reader_exit finish th_status].
    exists [SetReadDeadline (Add now (seconds (ReadTimeout w)))].
    split; reflexivity.
  - assert (Hloop : forall th, th_status th = Running -> closes (trace th) = [] ->
              match th_status (reader_loop e th ins) with
              | Running => closes (trace (reader_loop e th ins)) = []
              | _ =>
                  exists pre, trace (reader_loop e th ins) =
                              pre ++ [CloseSignal true; ConnClose] /\
                              closes pre = []
              end).
    { induction ins as [|i rest IH]; intros th Hrun Hcl.
      - cbn. rewrite Hrun. exact Hcl.
      - cbn [reader_loop].
        pose proof (reader_step_closes e th i Hrun Hcl) as Hstep.
        destruct (th_status (reader_step e th i)) eqn:Hst.
        + apply IH; assumption.
        + rewrite Hst. exact Hstep.
        + rewrite Hst. exact Hstep. }
    apply Hloop; reflexivity.
Qed.

(** A read makes the reader panic only where the registry it finds has no
    entry for the endpoint: the supervisor's deferred [delete], which runs
    next, then removes nothing. *)
Lemma reader_panics_on_missing_entry e th tunnels res now :
  th_status th = Running ->
  th_status (reader_step e th (RRead tunnels res now)) = Panicked ->
  tunnels !! e = None /\ delete e tunnels = tunnels.
Proof.
  intros Hrun. cbn [reader_step]. unfold reader_read.
  destruct (tunnels !! e) as [tunnel|] eqn:Hreg.
  - destruct (rd_err res) as [msg|].
    + destruct (Contains msg "websocket: close" || Contains msg "i/o");
        cbn; rewrite ?Hrun; discriminate.
    + destruct (Z.of_nat (length (rd_bytes res)) <? 2);
        [cbn; rewrite Hrun; discriminate|].
      destruct (rd_bytes res) as [|b0 [|b1 rest]];
        try (cbn; rewrite Hrun; discriminate).
      destruct (bindWriteChannels tunnel !! _); cbn; rewrite Hrun; discriminate.
  - intros _. split; [reflexivity|]. apply delete_id. exact Hreg.
Qed.

End Runs.

(* ===================================================================== *)
(** ** Further properties: the supervisor                                 *)
(* ===================================================================== *)

Section SupervisorRuns.

Import transport.

Lemma supervise_never_idles_out_witness :
  int64 (Unix (1700000000 * Second) - lastActivityStamp sample.sup1)
    <= LinkIdleTimeout sample.w1 /\
  sup_status (supervise sample.w1 sample.sup1 (1700000000 * Second) [DialFailed])
    <> Returned /\
  sup_tunnel (supervise sample.w1 sample.sup1 (1700000000 * Second) [DialFailed])
    = sample.w1.
Proof.
  assert (Hcheck : int64 (Unix (1700000000 * Second) - lastActivityStamp sample.sup1)
                   <= LinkIdleTimeout sample.w1)
    by (vm_compute; congruence).
  split; [exact Hcheck|].
  exact (supervise_never_idles_out sample.w1 sample.sup1 (1700000000 * Second)
           [DialFailed] Hcheck).
Defined.

(** X17. A tunnel whose supervisor finds it idle at start-up (the clock read
    by the check is more than [LinkIdleTimeout] seconds past the creation
    stamp) is unregistered at once: the supervisor returns without dialing
    and the registry is again what it was before the attach, although the
    caller was given a queue and channel id 1. *)
Theorem attach_then_idle_check_unregisters w h now e q s check_now iters :
  EstablishedTunnels w !! e = None ->
  ds_spawned (PersistentDial w h now e q) = Some s ->
  int64 (Unix check_now - Unix now) > LinkIdleTimeout w ->
  let st := PersistentDial w h now e q in
  let r := supervise (ds_tunnel st) s check_now iters in
  dial_id (ds_result st) = 1 /\
  sup_status r = Returned /\
  sup_sessions r = [] /\
  EstablishedTunnels (sup_tunnel r) = EstablishedTunnels w.
Proof.
  intros Habs Hsp Hidle. cbv zeta. revert Hsp.
  unfold PersistentDial. rewrite Habs. cbn. intros [= <-].
  unfold supervise. cbn [lastActivityStamp sup_endpoint ds_tunnel with_tunnels
                         LinkIdleTimeout EstablishedTunnels].
  destruct (Z.gtb_spec (int64 (Unix check_now - Unix now)) (LinkIdleTimeout w));
    [|lia].
  cbn. repeat (split; [reflexivity|]).
  apply delete_insert_id. exact Habs.
Qed.

Lemma attach_then_idle_check_unregisters_witness :
  let now := 1700000000 * Second in
  let check_now := 1700000121 * Second in
  exists s,
    EstablishedTunnels sample.w0 !! sample.endpoint = None /\
    ds_spawned (PersistentDial sample.w0 0%nat now sample.endpoint 7%nat) = Some s /\
    int64 (Unix check_now - Unix now) > LinkIdleTimeout sample.w0 /\
    EstablishedTunnels
      (sup_tunnel (supervise
                     (ds_tunnel (PersistentDial sample.w0 0%nat now sample.endpoint 7%nat))
                     s check_now []))
    = EstablishedTunnels sample.w0.
Proof.
  intros now check_now. eexists.
  assert (Hidle : int64 (Unix check_now - Unix now) > LinkIdleTimeout sample.w0)
    by (vm_compute; reflexivity).
  split; [reflexivity|]. split; [reflexivity|]. split; [exact Hidle|].
  pose proof (attach_then_idle_check_unregisters sample.w0 0%nat now
                sample.endpoint 7%nat _ check_now [] eq_refl eq_refl Hidle)
    as (_ & _ & _ & Hreg).
  exact Hreg.
Defined.

(** X18. A failed dial changes nothing: the supervisor goes straight to the
    next turn, so a run is the run of its turns that got a connection. *)
Theorem supervise_skips_failed_dials w s check_now iters :
  supervise w s check_now iters =
  supervise w s check_now (List.filter is_session iters).
Proof.
  unfold supervise.
  destruct (int64 (Unix check_now - lastActivityStamp s) >? LinkIdleTimeout w);
    [reflexivity|].
  generalize (lastActivityStamp s) (@nil session).
  induction iters as [|it rest IH]; intros last done; [reflexivity|].
  destruct it as [|now derr rs ws]; cbn [List.filter is_session sup_loop].
  - apply IH.
  - destruct (th_status (ses_reader (run_session w s last now derr rs ws)));
      [reflexivity | apply IH | reflexivity].
Qed.

End SupervisorRuns.

(* ===================================================================== *)
(** ** Further properties: the wiring made by RunServer                   *)
(* ===================================================================== *)

Section Wiring.

Import core.

(** X19. The server handler is told to resolve by DoH exactly when it is
    given a DoH client, and that is when the remote DNS address starts with
    "https://"; otherwise the resolve system is "DNSCrypt" and the client is
    nil. *)
Theorem resolve_system_matches_client config :
  let handler := socks5.connectHandle (s5 (RunServer config false)) in
  (server.ResolveSystem handler = "doh" <-> is_Some (server.DoHClient handler)) /\
  (server.ResolveSystem handler = "DNSCrypt" <-> server.DoHClient handler = None) /\
  (is_Some (server.DoHClient handler) <->
   HasPrefix (RemoteDNSAddr config) "https://" = true).
Proof.
  cbn. unfold resolveSystem, dohClient.
  destruct (HasPrefix (RemoteDNSAddr config) "https://").
  - repeat split; intros H; eauto; discriminate.
  - repeat split; intros H; try discriminate; try reflexivity;
      by destruct H.
Qed.

(** X20. When a DoH client is built, it dials through the very dialer the
    server handler uses, whose proxy address is "socks5://" followed by the
    bind address, and it consults the handler's local resolver. *)
Theorem dohClient_shares_dialer config c :
  dohClient config = Some c ->
  let handler := serverHandler config in
  doh.dialer_ c = Some (server.Dialer handler) /\
  doh.localResolver c = Some (server.LocalResolver handler) /\
  dialer.ProxyAddress (server.Dialer handler) = "socks5://" +:+ BindAddress config /\
  HasPrefix (dialer.ProxyAddress (server.Dialer handler)) "socks5://" = true.
Proof.
  unfold dohClient.
  destruct (HasPrefix (RemoteDNSAddr config) "https://"); [|discriminate].
  intros [= <-]. cbn. repeat (split; [reflexivity|]).
  unfold HasPrefix. cbn. destruct (BindAddress config); reflexivity.
Qed.

Lemma dohClient_shares_dialer_witness :
  exists c,
    dohClient sample.config = Some c /\
    doh.dialer_ c = Some (server.Dialer (serverHandler sample.config)).
Proof.
  eexists. split; [reflexivity|].
  exact (proj1 (dohClient_shares_dialer sample.config _ eq_refl)).
Defined.

End Wiring.

(* ===================================================================== *)
(** ** The writer and the reader, packet by packet                        *)
(* ===================================================================== *)

Section PerPacket.

Import transport.

Lemma writer_loop_snoc w pkts i : forall th0,
  th_status th0 = Running ->
  writer_loop w th0 (map sent_ok pkts ++ [i]) =
  writer_step w (writer_loop w th0 (map sent_ok pkts)) i.
Proof.
  induction pkts as [|p more IH]; intros th0 Hrun.
  - cbn [map app writer_loop].
    destruct (th_status (writer_step w th0 i)); reflexivity.
  - cbn [map app writer_loop].
    pose proof (writer_step_status w th0 (sent_ok p)) as Hst.
    unfold sent_ok in Hst. fold (sent_ok p) in Hst.
    rewrite Hst, Hrun. apply IH. rewrite Hst. exact Hrun.
Qed.

Lemma writer_step_packet w th rt now deadline_err write_err now' :
  0 <= Channel rt < 65536 ->
  exists closing,
    (forall bs, ConnWrite bs ∉ closing) /\
    trace (writer_step w th (WPacket rt now deadline_err write_err now')) =
      trace th
      ++ SetWriteDeadline (Add now (seconds (WriteTimeout w)))
         :: match deadline_err with
            | None => [ConnWrite (bytes_of_string (ShortClientID w)
                                  ++ [Channel rt / 256; Channel rt mod 256]
                                  ++ Data rt)]
            | Some _ => []
            end
      ++ closing.
Proof.
  intros Hch. rewrite writer_step_trace. cbn [writer_chunk].
  rewrite <- (frame_wire w rt Hch).
  assert (Hclosing : forall bs, ConnWrite bs ∉ [CloseSignal false; ConnClose]).
  { intros bs Hin. repeat (apply elem_of_cons in Hin as [Hin|Hin]; [discriminate|]).
    by apply elem_of_nil in Hin. }
  destruct deadline_err as [e|]; [|destruct write_err as [e|]].
  - exists [CloseSignal false; ConnClose]. split; [exact Hclosing|].
    destruct write_err; reflexivity.
  - exists [CloseSignal false; ConnClose]. split; [exact Hclosing | reflexivity].
  - exists []. split; [|reflexivity].
    intros bs Hin. by apply elem_of_nil in Hin.
Qed.

(** C3 (amended). For a packet taken from the tunnel write queue, at any
    point of a run of the writer, the writer first sets the write deadline
    to the current time plus [time.Duration(WriteTimeout) * time.Second],
    which is [WriteTimeout] seconds as long as that many nanoseconds fit an
    [int64].  When that call succeeds, it then writes exactly
    [shortClientId ++ be16(channelId) ++ data], and nothing else; when it
    fails, the writer stops and the packet is not written. *)
Theorem writer_emits_frame w last pkts rt now deadline_err write_err now' :
  0 <= Channel rt < 65536 ->
  let wire := bytes_of_string (ShortClientID w)
              ++ [Channel rt / 256; Channel rt mod 256] ++ Data rt in
  let taken := WPacket rt now deadline_err write_err now' in
  let before := writer w last (map sent_ok pkts) in
  let after := writer w last (map sent_ok pkts ++ [taken]) in
  (exists closing,
     (forall bs, ConnWrite bs ∉ closing) /\
     trace after =
       trace before
       ++ SetWriteDeadline (Add now (seconds (WriteTimeout w)))
          :: match deadline_err with
             | None => [ConnWrite wire]
             | Some _ => []
             end
       ++ closing) /\
  (-9223372036 <= WriteTimeout w <= 9223372036 ->
     Add now (seconds (WriteTimeout w)) = now + WriteTimeout w * Second) /\
  (deadline_err <> None ->
     th_status after = Returned /\
     conn_writes (trace after) = conn_writes (trace before)).
Proof.
  intros Hch wire taken before after. subst wire taken before after.
  unfold writer.
  rewrite (writer_loop_snoc w pkts _ (spawn last) eq_refl).
  split; [apply writer_step_packet; exact Hch|].
  split.
  - intros Hto. rewrite seconds_exact by exact Hto. reflexivity.
  - intros Herr. destruct deadline_err as [msg|]; [|congruence].
    split.
    + rewrite writer_step_status. reflexivity.
    + rewrite writer_step_trace, conn_writes_app. cbn.
      destruct write_err; cbn; apply app_nil_r.
Qed.

Lemma writer_emits_frame_witness :
  let rt := {| Channel := 1; Data := [104; 105] |} in
  let taken := WPacket rt (1700000005 * Second) None None (1700000005 * Second) in
  0 <= Channel rt < 65536 /\
  exists closing,
    (forall bs, ConnWrite bs ∉ closing) /\
    trace (writer sample.w1 1700000000 (map sent_ok [] ++ [taken])) =
      trace (writer sample.w1 1700000000 (map sent_ok []))
      ++ SetWriteDeadline (Add (1700000005 * Second) (seconds (WriteTimeout sample.w1)))
         :: [ConnWrite (bytes_of_string (ShortClientID sample.w1)
                        ++ [Channel rt / 256; Channel rt mod 256] ++ Data rt)]
      ++ closing.
Proof.
  intros rt taken.
  assert (Hch : 0 <= Channel rt < 65536) by (split; vm_compute; congruence).
  split; [exact Hch|].
  exact (proj1 (writer_emits_frame sample.w1 1700000000 [] rt
                  (1700000005 * Second) None None (1700000005 * Second) Hch)).
Defined.

(** C3, as stated, fails: a packet taken from the queue while the connection
    is already closed, so that setting the write deadline fails, is never
    written. *)
Lemma writer_drops_packet_when_deadline_fails :
  let rt := {| Channel := 1; Data := [104; 105] |} in
  let th := writer sample.w1 1700000000
              [WPacket rt (1700000005 * Second)
                 (Some "set tcp 10.0.0.2:443: use of closed network connection")
                 None (1700000005 * Second)] in
  ~ (frame sample.w1 rt ∈ conn_writes (trace th)).
Proof.
  intros rt th Hin.
  assert (Hnone : conn_writes (trace th) = []) by reflexivity.
  rewrite Hnone in Hin. by apply elem_of_nil in Hin.
Qed.

Lemma reader_loop_snoc tunnels e t msgs i :
  tunnels !! e = Some t ->
  forall th0, th_status th0 = Running ->
    reader_loop e th0 (map (read_ok tunnels) msgs ++ [i]) =
    reader_step e (reader_loop e th0 (map (read_ok tunnels) msgs)) i.
Proof.
  intros Hreg th0 Hrun.
  rewrite (reader_loop_app_ok tunnels e t msgs [i] Hreg th0 Hrun).
  cbn [reader_loop].
  destruct (th_status (reader_step e _ i)); reflexivity.
Qed.

Lemma reader_step_routed tunnels e tunnel th bs now :
  tunnels !! e = Some tunnel ->
  Forall is_byte bs ->
  routed tunnel bs now th
    (reader_step e th (RRead tunnels {| rd_bytes := bs; rd_err := None |} now)).
Proof.
  intros Hreg Hbytes. cbn [reader_step]. unfold routed, reader_read.
  cbn [rd_err rd_bytes]. split.
  - intros Hlen.
    destruct (Z.ltb_spec (Z.of_nat (length bs)) 2) as [_|Hge]; [reflexivity|lia].
  - intros b0 b1 payload ->.
    destruct (Z.ltb_spec (Z.of_nat (length (b0 :: b1 :: payload))) 2) as [Hlt|_];
      [cbn [length] in Hlt; lia|].
    rewrite Hreg.
    assert (Hb0 : is_byte b0) by (by apply Forall_cons in Hbytes as [? _]).
    assert (Hb1 : is_byte b1).
    { apply Forall_cons in Hbytes as [_ Hrest].
      by apply Forall_cons in Hrest as [? _]. }
    cbn [Channel]. rewrite Uint16_big_endian by assumption.
    destruct (bindWriteChannels tunnel !! (b0 * 256 + b1)) as [queue|].
    + cbn. rewrite <- app_assoc. auto.
    + reflexivity.
Qed.

(** C4. Each message the tunnel reader reads without error, while the
    endpoint's tunnel is registered, is handled so, both for one turn of its
    loop from any state and at any point of a run of the reader: a message
    of fewer than 2 bytes is ignored; otherwise the channel id is the
    big-endian value of the first two bytes and the payload is the rest; the
    packet is sent on the bind queue registered for that id when there is
    one, and dropped, with no other effect, when there is none. *)
Theorem reader_routes_message w tunnels e t0 last now0 msgs tunnels' tunnel bs now :
  tunnels !! e = Some t0 ->
  tunnels' !! e = Some tunnel ->
  Forall is_byte bs ->
  let message := RRead tunnels' {| rd_bytes := bs; rd_err := None |} now in
  (forall th, routed tunnel bs now th (reader_step e th message)) /\
  routed tunnel bs now
    (reader w e last now0 None (map (read_ok tunnels) msgs))
    (reader w e last now0 None (map (read_ok tunnels) msgs ++ [message])).
Proof.
  intros Hreg Hreg' Hbytes message. subst message. split.
  - intros th. apply reader_step_routed; assumption.
  - unfold reader.
    rewrite (reader_loop_snoc tunnels e t0 msgs _ Hreg
               (emit (spawn last) (SetReadDeadline (Add now0 (seconds (ReadTimeout w)))))
               eq_refl).
    apply reader_step_routed; assumption.
Qed.

Lemma reader_routes_message_witness :
  let msgs := [([0; 1; 33], 1700000005 * Second)] in
  exists tunnel,
    EstablishedTunnels sample.w1 !! sample.endpoint = Some tunnel /\
    bindWriteChannels tunnel !! 1 = Some 7%nat /\
    Forall is_byte [0; 1; 104; 105] /\
    trace (reader sample.w1 sample.endpoint 1700000000 (1700000000 * Second) None
             (map (read_ok (EstablishedTunnels sample.w1)) msgs
              ++ [RRead (EstablishedTunnels sample.w1)
                    {| rd_bytes := [0; 1; 104; 105]; rd_err := None |}
                    (1700000009 * Second)]))
    = trace (reader sample.w1 sample.endpoint 1700000000 (1700000000 * Second) None
               (map (read_ok (EstablishedTunnels sample.w1)) msgs))
      ++ [ConnRead; ChanSend 7%nat {| Channel := 1; Data := [104; 105] |}].
Proof.
  intros msgs. eexists. split; [reflexivity|]. split; [reflexivity|].
  assert (Hbytes : Forall is_byte [0; 1; 104; 105])
    by (repeat constructor; unfold is_byte; lia).
  split; [exact Hbytes|].
  pose proof (proj2 (proj2 (reader_routes_message sample.w1
                       (EstablishedTunnels sample.w1) sample.endpoint _
                       1700000000 (1700000000 * Second) msgs
                       (EstablishedTunnels sample.w1) _ [0; 1; 104; 105]
                       (1700000009 * Second) eq_refl eq_refl Hbytes))
                _ _ _ eq_refl) as Hroute.
  exact (proj1 Hroute).
Defined.

End PerPacket.
